(** * Pint: quantities and unit systems

    A shallow embedding of [pint/quantity.py] (class [_Quantity]) and
    [pint/systems.py] (classes [SystemDefinition] and [System]), with the
    properties of their specification stated and proved over it.

    Conventions of the embedding.
    - Numbers (magnitudes, unit exponents, conversion factors) are exact
      rationals [Q], as Python's [int] and [fractions.Fraction] are; numeric
      equality [==] is [Qeq_bool] and [<] is the order of [Q].
    - A Python call that may raise returns a [result]; [Raise e] carries the
      exception.  Code that mutates objects threads the object (or the store
      that holds it) explicitly.
    - Dictionaries and sets are stdpp's [gmap] and [gset].
    - Strings are sequences of ASCII characters. *)

From Stdlib Require Import QArith Qabs ZArith String Ascii List Bool Lia.
From stdpp Require Import base option list strings pretty gmap sets fin_maps.

Set Default Proof Using "Type".

(** ** Python exceptions and fallible computations *)

Module Py.

Inductive exn : Type :=
| DimensionalityError
| ValueError (msg : string)
| TypeError (msg : string)
| ZeroDivisionError
| StopIteration
| OtherError (msg : string).

Inductive result (A : Type) : Type :=
| Ok (a : A)
| Raise (e : exn).
Global Arguments Ok {A} a.
Global Arguments Raise {A} e.

Definition bind {A B} (m : result A) (k : A → result B) : result B :=
  match m with
  | Ok a => k a
  | Raise e => Raise e
  end.

Global Instance result_ret : MRet result := λ A a, Ok a.
Global Instance result_bind : MBind result := λ A B k m, bind m k.

(** A loop body run over a list, stopping at the first exception. *)
Fixpoint for_each {A B} (f : A → result B) (l : list A) : result (list B) :=
  match l with
  | [] => Ok []
  | x :: l' => y ← f x; ys ← for_each f l'; Ok (y :: ys)
  end.

(** The value of a computation that did not raise. *)
Definition from_result {A} (r : result A) : option A :=
  match r with
  | Ok a => Some a
  | Raise _ => None
  end.

End Py.
Export Py.

(** ** The string operations the parsers use *)

Module Str.

Definition code (c : ascii) : nat := nat_of_ascii c.

(** [str.isspace] on ASCII: tab, newline, vertical tab, form feed, carriage
    return, the four separators 0x1c-0x1f and the blank.  The same class
    is the pattern [\s] of [re]. *)
Definition is_space (c : ascii) : bool :=
  let n := code c in
  ((9 <=? n) && (n <=? 13) || (28 <=? n) && (n <=? 32))%nat.

(** The pattern [\w] of [re] on ASCII: letters, digits and underscore. *)
Definition is_word (c : ascii) : bool :=
  let n := code c in
  ((48 <=? n) && (n <=? 57) || (65 <=? n) && (n <=? 90)
   || (n =? 95) || (97 <=? n) && (n <=? 122))%nat.

(** The pattern [.] of [re]: anything but a newline. *)
Definition is_dot (c : ascii) : bool := negb (code c =? 10)%nat.

(** Longest prefix whose characters satisfy [p], and what follows it. *)
Fixpoint span (p : ascii → bool) (s : string) : string * string :=
  match s with
  | EmptyString => (EmptyString, EmptyString)
  | String c s' =>
      if p c then let '(a, b) := span p s' in (String c a, b)
      else (EmptyString, s)
  end.

Fixpoint strip_prefix (p s : string) : option string :=
  match p, s with
  | EmptyString, _ => Some s
  | String a p', String b s' =>
      if Ascii.eqb a b then strip_prefix p' s' else None
  | String _ _, EmptyString => None
  end.

Definition lstrip (s : string) : string := (span is_space s).2.

(** [rstrip] drops the trailing whitespace: a character is kept when it is
    not whitespace or when something is kept after it. *)
Fixpoint rstrip (s : string) : string :=
  match s with
  | EmptyString => EmptyString
  | String c s' =>
      match rstrip s' with
      | EmptyString => if is_space c then EmptyString else String c EmptyString
      | r => String c r
      end
  end.

(** [str.strip()] *)
Definition strip (s : string) : string := rstrip (lstrip s).

(** [sep in s] for a one-character [sep] *)
Fixpoint contains_char (sep : ascii) (s : string) : bool :=
  match s with
  | EmptyString => false
  | String c s' => Ascii.eqb c sep || contains_char sep s'
  end.

(** [s.split(sep)] for a one-character [sep]: every occurrence splits, and
    empty pieces are kept. *)
Fixpoint split (sep : ascii) (s : string) : list string :=
  match s with
  | EmptyString => [EmptyString]
  | String c s' =>
      if Ascii.eqb c sep then EmptyString :: split sep s'
      else match split sep s' with
           | [] => [String c EmptyString]
           | w :: ws => String c w :: ws
           end
  end.

(** Truth value of a string: non-empty. *)
Definition truthy (s : string) : bool :=
  match s with EmptyString => false | String _ _ => true end.

End Str.

(** ** [SystemDefinition] *)

Module SystemDefinition.
Import Str.

(** One replacement rule: [(lineno, new_unit, old_unit)], where [old_unit]
    is [None] for a bare [new_unit] line. *)
Definition rule : Type := Z * string * option string.

Record t : Type := mk {
  name : string;
  unit_replacements : list rule;
  using_group_names : list string
}.

(** *** The header pattern

    [_header_re] is the sequence of: the text [@system]; [\s+]; the group
    [name], which is [\w+]; [\s*]; and a starred group made of the text
    [using], one [\s] and the group [used_groups], which is [.] starred.
    [match_header_at s] is the match of the pattern anchored at the start of
    [s].  The pattern is matched in the order the backtracking matcher tries
    its alternatives, every repetition being greedy:
    - [\s+] takes the whole run of whitespace, since the next item [\w+]
      cannot start with whitespace;
    - [\w+] takes the whole run of word characters, and from there on
      nothing is mandatory, so the first alternative tried is the answer;
    - [\s*] takes the whole run of whitespace;
    - the starred group is tried once: if [using], a whitespace character
      and then the starred [.] (the rest of the line) match, [used_groups]
      is that rest; a second round cannot start, because the starred [.]
      stopped at the end of the text or in front of a newline.  Otherwise the group matches zero
      times and [used_groups] is [None]. *)
Definition match_header_at (s : string) : option (string * option string) :=
  match strip_prefix "@system" s with
  | None => None
  | Some r1 =>
      let '(ws, r2) := span is_space r1 in
      if truthy ws then
        let '(nm, r3) := span is_word r2 in
        if truthy nm then
          let '(_, r4) := span is_space r3 in
          match strip_prefix "using" r4 with
          | Some (String c r5) =>
              if is_space c then Some (nm, Some (span is_dot r5).1)
              else Some (nm, None)
          | _ => Some (nm, None)
          end
        else None
      else None
  end.

(** [_header_re.search(header)]: the match at the leftmost position that
    has one.  The result is [groupdict()] restricted to its two keys. *)
Fixpoint header_search (s : string) : option (string * option string) :=
  match match_header_at s with
  | Some r => Some r
  | None =>
      match s with
      | EmptyString => None
      | String _ s' => header_search s'
      end
  end.

(** The body of the loop over the rule lines. *)
Definition parse_rule (l : Z * string) : result rule :=
  let '(lineno, line) := l in
  let line := strip line in
  if contains_char ":" line then
    match split ":" line with
    | [new_unit; old_unit] => Ok (lineno, strip new_unit, Some (strip old_unit))
    | _ => Raise (ValueError "too many values to unpack (expected 2)")
    end
  else Ok (lineno, line, None).

(** [SystemDefinition.from_lines].  [lines] is what [SourceIterator(lines)]
    yields: the pairs [(lineno, line)].  [non_int_type] is not used by the
    function and is left out. *)
Definition from_lines (lines : list (Z * string)) : result t :=
  match lines with
  | [] => Raise StopIteration
  | (lineno, header) :: lines =>
      match header_search header with
      | None =>
          Raise (ValueError ("Invalid System header syntax '" +:+ header +:+ "'"))
      | Some (nm, groups) =>
          let name := strip nm in
          let group_names :=
            match groups with
            | Some g => if truthy g then strip <$> split "," g else ["root"]
            | None => ["root"]
            end in
          unit_replacements ← for_each parse_rule lines;
          Ok (mk name unit_replacements group_names)
      end
  end.

End SystemDefinition.

(** ** Units *)

Module Units.

(** Modelled from the spec: [UnitsContainer] is declared in [pint/unit.py],
    outside the two modules embedded here.  It is a mapping from unit name
    to exponent, whose canonical form has no zero exponent; the empty
    container is dimensionless. *)
Abbreviation UnitsContainer := (gmap string Q).

(** Modelled from the spec: [UnitDefinition] is declared in [pint/unit.py]
    too.  [quantity.py] only tests for the class, so the definition is kept
    opaque: its name. *)
Record UnitDefinition : Type := { ud_name : string }.

(** What the attribute [_units] of a Quantity can hold: the constructor
    stores a [UnitsContainer] or a [UnitDefinition] as it is given. *)
Inductive units : Type :=
| UnitsC (u : UnitsContainer)
| UnitD (d : UnitDefinition).

(** [bool(container)]: a mapping is true when it is not empty. *)
Definition uc_bool (u : UnitsContainer) : bool := negb (size u =? 0)%nat.

(** Equality of two mappings as [dict.__eq__] decides it: the same keys,
    with numerically equal values. *)
Definition uc_eqb (a b : UnitsContainer) : bool :=
  (size a =? size b)%nat
  && forallb (λ '(k, v), match b !! k with
                         | Some w => Qeq_bool v w
                         | None => false
                         end) (map_to_list a).

End Units.
Export Units.

(** ** [_Quantity] *)

Module Quantity.

Local Open Scope Q_scope.

(** A Quantity object: its two attributes and the memo [_dimensionality],
    which is absent ([None]) until the property is first read. *)
Record t : Type := mk {
  _magnitude : Q;
  _units : units;
  _dimensionality : option UnitsContainer
}.

Definition set_magnitude (q : t) (m : Q) : t :=
  mk m (_units q) (_dimensionality q).

(** The Python values that reach the constructor and the operators.
    [PyObject cls] is an instance of any other class, [cls] being the name
    of that class. *)
Inductive pyobj : Type :=
| PyNone
| PyNum (n : Q)
| PyStr (s : string)
| PyUnitsContainer (u : UnitsContainer)
| PyUnitDefinition (d : UnitDefinition)
| PyQuantity (q : t)
| PyObject (cls : string).

Definition py_of_units (u : units) : pyobj :=
  match u with
  | UnitsC c => PyUnitsContainer c
  | UnitD d => PyUnitDefinition d
  end.

(** The name of [type(x)]; numbers are [fractions.Fraction]. *)
Definition type_name (x : pyobj) : string :=
  match x with
  | PyNone => "NoneType"
  | PyNum _ => "fractions.Fraction"
  | PyStr _ => "str"
  | PyUnitsContainer _ => "pint.unit.UnitsContainer"
  | PyUnitDefinition _ => "pint.unit.UnitDefinition"
  | PyQuantity _ => "pint.quantity.Quantity"
  | PyObject cls => cls
  end.

(** ['{}'.format(type(x))] *)
Definition type_repr (x : pyobj) : string :=
  "<class '" +:+ type_name x +:+ "'>".

(** What [quantity.py] imports from modules that are not at hand, and what
    it reaches through [cls._REGISTRY]:
    - from [pint/unit.py], the equality [==] of two [_units] values;
    - from [pint/util.py], [_to_magnitude] (the flag [force_ndarray] is
      fixed by the class, so it is part of the function here);
    - the methods of the registry. *)
Record Env : Type := {
  units_eq : units → units → bool;
  _to_magnitude : pyobj → result Q;
  _parse_expression : string → result t;
  convert : Q → units → units → result Q;
  base_units_of : units → result (Q * UnitsContainer);
  base_dimensionality_of : units → result UnitsContainer
}.

(** Modelled from the spec: [_eq] is defined in [pint/util.py]; on scalar
    magnitudes it is numeric equality. *)
Definition _eq (a b : Q) : bool := Qeq_bool a b.

(** [a == x] for a number [a] and any object [x]: a number equals no object
    of another kind. *)
Definition _eq_obj (a : Q) (x : pyobj) : bool :=
  match x with
  | PyNum b => _eq a b
  | _ => false
  end.

(** [operator.lt] on two numbers *)
Definition lt (a b : Q) : bool := negb (Qle_bool b a).

(** [operator.lt(a, x)] for a number [a] and any object [x] *)
Definition lt_obj (a : Q) (x : pyobj) : result bool :=
  match x with
  | PyNum b => Ok (lt a b)
  | _ => Raise (TypeError ("'<' not supported between instances of "
                           +:+ "'fractions.Fraction' and '" +:+ type_name x +:+ "'"))
  end.

Section WithEnv.
Context (E : Env).

(** The two branches of [__new__] that build the object from scratch:
    [inst = object.__new__(cls)], then the two attributes. *)
Definition new_plain (value : pyobj) (u : units) : result t :=
  m ← _to_magnitude E value;
  Ok (mk m u None).

(** [__copy__]: [self.__class__(copy.copy(self._magnitude),
    copy.copy(self._units))].  [_units] is a [UnitsContainer] or a
    [UnitDefinition], so the call is the second branch of [__new__]
    (lemma [new_of_units] below). *)
Definition __copy__ (self : t) : result t :=
  new_plain (PyNum (_magnitude self)) (_units self).

Definition __new__ (value : pyobj) (units : pyobj) : result t :=
  match units with
  | PyNone =>
      match value with
      | PyStr s => _parse_expression E s
      | PyQuantity q => __copy__ q
      | _ => new_plain value (UnitsC ∅)
      end
  | PyUnitsContainer u => new_plain value (UnitsC u)
  | PyUnitDefinition d => new_plain value (UnitD d)
  | PyStr s =>
      inst ← _parse_expression E s;
      m ← _to_magnitude E value;
      Ok (set_magnitude inst m)
  | PyQuantity q =>
      inst ← __copy__ q;
      m ← _to_magnitude E value;
      Ok (set_magnitude inst m)
  | _ =>
      Raise (TypeError ("units must be of type str, Quantity or "
                        +:+ "UnitsContainer; not " +:+ type_repr units +:+ "."))
  end.

(** The property [dimensionality]: the value, and the object with its
    memo filled. *)
Definition dimensionality (self : t) : result (UnitsContainer * t) :=
  match _dimensionality self with
  | Some d => Ok (d, self)
  | None =>
      d ← base_dimensionality_of E (_units self);
      Ok (d, mk (_magnitude self) (_units self) (Some d))
  end.

(** [==] and [!=] of two dimensionalities: they are [UnitsContainer]s. *)
Definition dim_eq (d1 d2 : UnitsContainer) : bool :=
  units_eq E (UnitsC d1) (UnitsC d2).

(** [ito]: the object after the conversion in place.  The memo
    [_dimensionality] is not touched. *)
Definition ito (self : t) (other : pyobj) : result t :=
  other ← match other with
          | PyStr s => _parse_expression E s
          | PyQuantity o => Ok o
          | _ => Raise (OtherError ("AttributeError: '" +:+ type_name other
                                    +:+ "' object has no attribute '_units'"))
          end;
  m ← convert E (_magnitude self) (_units self) (_units other);
  Ok (mk m (_units other) (_dimensionality self)).

Definition to (self : t) (other : pyobj) : result t :=
  ret ← __copy__ self;
  ito ret other.

Definition convert_to_reference (self : t) : result t :=
  '(factor, units) ← base_units_of E (_units self);
  __new__ (PyNum (_magnitude self * factor)) (PyUnitsContainer units).

(** The property [dimensionless] *)
Definition dimensionless (self : t) : result bool :=
  c ← __copy__ self;
  tmp ← convert_to_reference c;
  '(d, _) ← dimensionality tmp;
  Ok (negb (uc_bool d)).

(** [iadd_sub]: the object [self] after the operation.  [fun_] is
    [operator.iadd] or [operator.isub] on two magnitudes. *)
Definition iadd_sub (self : t) (other : pyobj) (fun_ : Q → Q → Q) : result t :=
  match other with
  | PyQuantity other =>
      '(d1, self) ← dimensionality self;
      '(d2, other) ← dimensionality other;
      if negb (dim_eq d1 d2) then Raise DimensionalityError
      else if units_eq E (_units self) (_units other) then
        Ok (set_magnitude self (fun_ (_magnitude self) (_magnitude other)))
      else
        o ← to other (PyQuantity self);
        Ok (set_magnitude self (fun_ (_magnitude self) (_magnitude o)))
  | _ =>
      d ← dimensionless self;
      if d : bool then
        m ← _to_magnitude E other;
        Ok (set_magnitude self (fun_ (_magnitude self) m))
      else Raise DimensionalityError
  end.

(** [add_sub]: [fun_] is [operator.iadd] or [operator.isub] applied to
    the copy, that is the in-place method of the copy; the copy comes
    back changed. *)
Definition add_sub (self : t) (other : pyobj)
    (fun_ : t → pyobj → result t) : result t :=
  ret ← __copy__ self;
  fun_ ret other.

Definition __iadd__ (self : t) (other : pyobj) : result t :=
  iadd_sub self other Qplus.

Definition __add__ (self : t) (other : pyobj) : result t :=
  add_sub self other __iadd__.

Definition __radd__ := __add__.

Definition __isub__ (self : t) (other : pyobj) : result t :=
  iadd_sub self other Qminus.

Definition __sub__ (self : t) (other : pyobj) : result t :=
  add_sub self other __isub__.

(** [__rsub__ = __sub__]: Python evaluates [n - q], for a number [n] and a
    Quantity [q], as [q.__rsub__(n)]. *)
Definition __rsub__ := __sub__.

(** [__eq__].  The test on the class names sends every Quantity to the
    first branch.  The memo the property [dimensionality] fills in the two
    operands does not change what the comparison returns, and the operands
    are not returned. *)
Definition __eq__ (self : t) (other : pyobj) : result bool :=
  match other with
  | PyQuantity other =>
      if _eq (_magnitude self) 0 && _eq (_magnitude other) 0 then
        '(d1, _) ← dimensionality self;
        '(d2, _) ← dimensionality other;
        Ok (dim_eq d1 d2)
      else if units_eq E (_units self) (_units other) then
        Ok (_eq (_magnitude self) (_magnitude other))
      else
        match to self (PyQuantity other) with
        | Ok r => Ok (_eq (_magnitude r) (_magnitude other))
        | Raise DimensionalityError => Ok false
        | Raise e => Raise e
        end
  | _ =>
      d ← dimensionless self;
      if d : bool then Ok (_eq_obj (_magnitude self) other) else Ok false
  end.

(** [__lt__].  The last [return] converts [self] twice. *)
Definition __lt__ (self : t) (other : pyobj) : result bool :=
  match other with
  | PyQuantity other =>
      if units_eq E (_units self) (_units other) then
        Ok (lt (_magnitude self) (_magnitude other))
      else
        '(d1, self) ← dimensionality self;
        '(d2, other) ← dimensionality other;
        if negb (dim_eq d1 d2) then Raise DimensionalityError
        else
          a ← convert_to_reference self;
          b ← convert_to_reference self;
          Ok (lt (_magnitude a) (_magnitude b))
  | _ =>
      d ← dimensionless self;
      if d : bool then lt_obj (_magnitude self) other
      else Raise (ValueError ("Cannot compare Quantity and " +:+ type_repr other))
  end.

(** The operators [functools.total_ordering] derives from [__lt__] and
    [__eq__], and [!=], which Python derives from [__eq__]. *)
Definition __le__ (self : t) (other : pyobj) : result bool :=
  r ← __lt__ self other;
  if r : bool then Ok true else __eq__ self other.

Definition __ne__ (self : t) (other : pyobj) : result bool :=
  r ← __eq__ self other; Ok (negb r).

Definition __gt__ (self : t) (other : pyobj) : result bool :=
  r ← __lt__ self other;
  if r : bool then Ok false else __ne__ self other.

Definition __ge__ (self : t) (other : pyobj) : result bool :=
  r ← __lt__ self other; Ok (negb r).


Definition __pos__ (self : t) : result t :=
  __new__ (PyNum (_magnitude self)) (py_of_units (_units self)).

Definition __neg__ (self : t) : result t :=
  __new__ (PyNum (- _magnitude self)) (py_of_units (_units self)).

End WithEnv.

End Quantity.

(** ** [System] *)

Module System.
Import SystemDefinition.

Local Open Scope Q_scope.

(** The attributes of a System object.  [_computed_members] is [None]
    until [members] is read, and again after an invalidation. *)
Record t : Type := mk {
  name : string;
  base_units : gmap string (gmap string Q);
  derived_units : gset string;
  _used_groups : gset string;
  _computed_members : option (gset string)
}.

(** The identity of a System object. *)
Definition ref : Type := nat.

(** The part of the registry the class works on: the System objects that
    exist, the table [_systems] from names to objects, and the table
    [_groups]; of a Group only its [members] are read, so the table holds
    that set. *)
Record Registry : Type := mkRegistry {
  objects : gmap ref t;
  _systems : gmap string ref;
  _groups : gmap string (gset string)
}.

(** A method that mutates [self], run on the object [self] of the store. *)
Definition on_object (self : ref) (method : t → t) (w : Registry) : Registry :=
  mkRegistry (alter method self (objects w)) (_systems w) (_groups w).

(** [System.__init__]: the new object, and the registry with the object
    entered under its name. *)
Definition __init__ (name : string) (w : Registry) : ref * Registry :=
  let self := fresh (dom (objects w)) in
  (self, mkRegistry (<[self := mk name ∅ ∅ ∅ None]> (objects w))
                    (<[name := self]> (_systems w))
                    (_groups w)).

Definition invalidate_members (self : t) : t :=
  mk (name self) (base_units self) (derived_units self) (_used_groups self) None.

Definition add_groups (group_names : list string) (self : t) : t :=
  invalidate_members
    (mk (name self) (base_units self) (derived_units self)
        (_used_groups self ∪ list_to_set group_names) (_computed_members self)).

Definition remove_groups (group_names : list string) (self : t) : t :=
  invalidate_members
    (mk (name self) (base_units self) (derived_units self)
        (_used_groups self ∖ list_to_set group_names) (_computed_members self)).

Definition warning (group_name system_name : string) : string :=
  "Could not resolve " +:+ group_name +:+ " in System " +:+ system_name.

(** The loop of [members] over the used groups: the set built so far and
    the warnings logged so far. *)
Fixpoint collect_members (d : gmap string (gset string)) (system_name : string)
    (group_names : list string) (acc : gset string * list string)
    : gset string * list string :=
  match group_names with
  | [] => acc
  | group_name :: rest =>
      collect_members d system_name rest
        match d !! group_name with
        | Some m => (acc.1 ∪ m, acc.2)
        | None => (acc.1, acc.2 ++ [warning group_name system_name])
        end
  end.

(** The property [members], given the table [_groups] of the registry: the
    set returned with the warnings logged, and the object afterwards. *)
Definition members (d : gmap string (gset string)) (self : t)
    : (gset string * list string) * t :=
  match _computed_members self with
  | Some m => ((m, []), self)
  | None =>
      let r := collect_members d (name self) (elements (_used_groups self)) (∅, []) in
      (r, mk (name self) (base_units self) (derived_units self)
             (_used_groups self) (Some r.1))
  end.

(** Python's [/] on two numbers *)
Definition py_div (a b : Q) : result Q :=
  if Qeq_bool b 0 then Raise ZeroDivisionError else Ok (a / b).

(** Modelled from the spec: [to_units_container] is defined in
    [pint/util.py]; the root-unit resolver already yields a
    [UnitsContainer], which the function returns as it is. *)
Definition to_units_container (u : UnitsContainer) : UnitsContainer := u.

Section FromDefinition.
(** The root-unit resolver, and [str] of a [UnitsContainer], which
    [pint/unit.py] defines. *)
Context (get_root_func : string → result (Q * UnitsContainer)).
Context (units_str : UnitsContainer → string).

(** The dictionary comprehension of the explicit rule: the items of the
    expansion other than [old_unit], each with [-1 / value]. *)
Definition invert_others (old_unit : string) (items : list (string * Q))
    : result (list (string * Q)) :=
  for_each (λ '(new_unit, value), w ← py_div (-1) value; Ok (new_unit, w))
           (filter (λ kv, kv.1 ≠ old_unit) items).

(** The body of the loop of [from_definition] for one rule;
    [base_unit_names] is the dictionary the loop fills.  In the explicit
    rule the comprehension has its own [new_unit], which does not leak:
    the assignment after it is keyed by the [new_unit] of the rule. *)
Definition apply_rule (base_unit_names : gmap string (gmap string Q)) (r : rule)
    : result (gmap string (gmap string Q)) :=
  let '(lineno, new_unit, old_unit) := r in
  match old_unit with
  | None =>
      '(_, root) ← get_root_func new_unit;
      let old_unit_dict := to_units_container root in
      if negb (size old_unit_dict =? 1)%nat then
        Raise (ValueError ("The new base must be a root dimension if not "
                           +:+ "discarded unit is specified."))
      else
        match map_to_list old_unit_dict with
        | (old_unit, value) :: _ =>
            w ← py_div 1 value;
            Ok (<[old_unit := {[new_unit := w]}]> base_unit_names)
        | [] => Raise (OtherError "KeyError: 'popitem(): dictionary is empty'")
        end
  | Some old_unit =>
      '(_, root_old) ← get_root_func old_unit;
      if negb (String.eqb old_unit (units_str root_old)) then
        Raise (ValueError ("In `" +:+ pretty lineno
                           +:+ "`, the unit at the right of the `:` ("
                           +:+ old_unit +:+ ") must be a root unit."))
      else
        '(_, root_new) ← get_root_func new_unit;
        let new_unit_expanded := to_units_container root_new in
        match new_unit_expanded !! old_unit with
        | None => Raise (ValueError "Old unit must be a component of new unit")
        | Some e =>
            items ← invert_others old_unit (map_to_list new_unit_expanded);
            let new_unit_dict : gmap string Q := list_to_map items in
            w ← py_div 1 e;
            Ok (<[old_unit := <[new_unit := w]> new_unit_dict]> base_unit_names)
        end
  end.

(** The loop over [system_definition.unit_replacements]. *)
Fixpoint apply_rules (base_unit_names : gmap string (gmap string Q))
    (rules : list rule) : result (gmap string (gmap string Q)) :=
  match rules with
  | [] => Ok base_unit_names
  | r :: rules =>
      base_unit_names ← apply_rule base_unit_names r;
      apply_rules base_unit_names rules
  end.

(** [base_units.update] with the entries of [base_unit_names] as keyword
    arguments *)
Definition update_base_units (base_unit_names : gmap string (gmap string Q))
    (self : t) : t :=
  mk (name self) (base_unit_names ∪ base_units self) (derived_units self)
     (_used_groups self) (_computed_members self).

(** [derived_units |= set(derived_unit_names)] *)
Definition update_derived_units (derived_unit_names : list string) (self : t) : t :=
  mk (name self) (base_units self) (derived_units self ∪ list_to_set derived_unit_names)
     (_used_groups self) (_computed_members self).

(** [System.from_definition]: the outcome and the registry afterwards.
    Nothing is written to the registry before the loop has ended. *)
Definition from_definition (system_definition : SystemDefinition.t) (w : Registry)
    : result ref * Registry :=
  match apply_rules ∅ (unit_replacements system_definition) with
  | Raise e => (Raise e, w)
  | Ok base_unit_names =>
      let derived_unit_names : list string := [] in
      let '(system, w) := __init__ (SystemDefinition.name system_definition) w in
      let w := on_object system (add_groups (using_group_names system_definition)) w in
      let w := on_object system (update_base_units base_unit_names) w in
      let w := on_object system (update_derived_units derived_unit_names) w in
      (Ok system, w)
  end.

(** [System.from_lines] *)
Definition from_lines (lines : list (Z * string)) (w : Registry)
    : result ref * Registry :=
  match SystemDefinition.from_lines lines with
  | Raise e => (Raise e, w)
  | Ok system_definition => from_definition system_definition w
  end.

End FromDefinition.

End System.

(** ** [Lister] *)

Module Lister.

Section WithUtil.
Context {A : Type}.

(** [getattr_maybe_raise] is defined in [pint/util.py]: called on the item,
    it returns or it raises. *)
Context (getattr_maybe_raise : string → result unit).

(** [__dir__]: the keys of the mapping [self.d]. *)
Definition __dir__ (d : gmap string A) : list string := (map_to_list d).*1.

(** [__getattr__]: [self.d[item]], which raises [KeyError] for a key the
    mapping does not have. *)
Definition __getattr__ (d : gmap string A) (item : string) : result A :=
  _ ← getattr_maybe_raise item;
  match d !! item with
  | Some v => Ok v
  | None => Raise (OtherError ("KeyError: '" +:+ item +:+ "'"))
  end.

End WithUtil.

End Lister.

(** ** A small registry, for examples

    Four units over two dimensions.  The registry answers for the empty
    container and for a single unit with exponent one, which is all the
    examples use. *)

Module Demo.
Import Quantity.

Local Open Scope Q_scope.

(** Per unit: the factor to the reference unit, the reference unit, and
    the dimension. *)
Definition unit_table (unit_name : string) : option (Q * string * string) :=
  if String.eqb unit_name "meter" then Some (1, "meter", "[length]")
  else if String.eqb unit_name "kilometer" then Some (1000, "meter", "[length]")
  else if String.eqb unit_name "second" then Some (1, "second", "[time]")
  else if String.eqb unit_name "minute" then Some (60, "second", "[time]")
  else None.

Definition undefined_unit {A} : result A := Raise (OtherError "UndefinedUnitError").

(** The unit of a container that holds one unit with exponent one. *)
Definition single (c : UnitsContainer) : option string :=
  match map_to_list c with
  | [(k, v)] => if Qeq_bool v 1 then Some k else None
  | _ => None
  end.

Definition lookup_units (u : units) : result (option (Q * string * string)) :=
  match u with
  | UnitsC c =>
      if (size c =? 0)%nat then Ok None
      else match single c ≫= unit_table with
           | Some r => Ok (Some r)
           | None => undefined_unit
           end
  | UnitD d =>
      match unit_table (ud_name d) with
      | Some r => Ok (Some r)
      | None => undefined_unit
      end
  end.

Definition demo_base_units_of (u : units) : result (Q * UnitsContainer) :=
  r ← lookup_units u;
  match r with
  | None => Ok (1, ∅)
  | Some (factor, reference, _) => Ok (factor, {[ reference := 1 ]})
  end.

Definition demo_base_dimensionality_of (u : units) : result UnitsContainer :=
  r ← lookup_units u;
  match r with
  | None => Ok ∅
  | Some (_, _, dimension) => Ok {[ dimension := 1 ]}
  end.

Definition demo_convert (m : Q) (src dst : units) : result Q :=
  '(f1, _) ← demo_base_units_of src;
  '(f2, _) ← demo_base_units_of dst;
  d1 ← demo_base_dimensionality_of src;
  d2 ← demo_base_dimensionality_of dst;
  if uc_eqb d1 d2 then Ok (m * f1 / f2) else Raise DimensionalityError.

Definition demo_units_eq (a b : units) : bool :=
  match a, b with
  | UnitsC x, UnitsC y => uc_eqb x y
  | UnitD x, UnitD y => String.eqb (ud_name x) (ud_name y)
  | _, _ => false
  end.

Definition demo_to_magnitude (value : pyobj) : result Q :=
  match value with
  | PyNum n => Ok n
  | _ => Raise (TypeError "Invalid magnitude for Quantity")
  end.

Definition demo_parse_expression (s : string) : result t :=
  match unit_table s with
  | Some _ => Ok (mk 1 (UnitsC {[ s := 1 ]}) None)
  | None => undefined_unit
  end.

Definition env : Env :=
  {| units_eq := demo_units_eq;
     _to_magnitude := demo_to_magnitude;
     _parse_expression := demo_parse_expression;
     convert := demo_convert;
     base_units_of := demo_base_units_of;
     base_dimensionality_of := demo_base_dimensionality_of |}.

(** A registry that is out of reach: every call to it raises. *)
Definition offline : Env :=
  {| units_eq := λ _ _, false;
     _to_magnitude := λ _, undefined_unit;
     _parse_expression := λ _, undefined_unit;
     convert := λ _ _ _, undefined_unit;
     base_units_of := λ _, undefined_unit;
     base_dimensionality_of := λ _, undefined_unit |}.

(** [Quantity(m, unit_name)] with the memo still empty *)
Definition quantity (m : Q) (unit_name : string) : t :=
  mk m (UnitsC {[ unit_name := 1 ]}) None.

(** A resolver of root units for the examples of [System]: [meter],
    [second] and [gram] are root units, [kilometer] and [kilogram] expand
    to one root unit, [speed] and [jerk] to two. *)
Definition get_root_func (unit_name : string) : result (Q * UnitsContainer) :=
  if String.eqb unit_name "meter" then Ok (1, {[ "meter" := 1 ]})
  else if String.eqb unit_name "second" then Ok (1, {[ "second" := 1 ]})
  else if String.eqb unit_name "gram" then Ok (1, {[ "gram" := 1 ]})
  else if String.eqb unit_name "kilometer" then Ok (1000, {[ "meter" := 1 ]})
  else if String.eqb unit_name "kilogram" then Ok (1000, {[ "gram" := 1 ]})
  else if String.eqb unit_name "speed" then
    Ok (1, <[ "meter" := 1 ]> {[ "second" := -1 ]})
  else if String.eqb unit_name "jerk" then
    Ok (1, <[ "meter" := 2 ]> {[ "second" := -3 ]})
  else undefined_unit.

(** [str] of a container, for a single unit with exponent one: its name.
    Other containers never equal a unit name; they are rendered by their
    unit names in brackets. *)
Definition units_str (c : UnitsContainer) : string :=
  match single c with
  | Some k => k
  | None => "<" +:+ String.concat " " (map_to_list c).*1 +:+ ">"
  end.

Definition empty_registry : System.Registry :=
  System.mkRegistry ∅ ∅ ∅.

(** Two groups that share the unit [second], and a System that uses one
    of them. *)
Definition metric_members : gset string := {[ "meter"; "second" ]}.
Definition imperial_members : gset string := {[ "foot"; "second" ]}.

Definition groups : gmap string (gset string) :=
  <[ "metric" := metric_members ]> {[ "imperial" := imperial_members ]}.

Definition imperial_system : System.t :=
  System.mk "imperial" ∅ ∅ {[ "imperial" ]} None.

(** The definition [@system demo] with the one rule [jerk : meter], and
    one with the bare rule [speed]. *)
Definition jerk_definition : SystemDefinition.t :=
  SystemDefinition.mk "demo" [(2%Z, "jerk", Some "meter")] ["root"].

Definition speed_definition : SystemDefinition.t :=
  SystemDefinition.mk "demo" [(2%Z, "speed", None)] ["root"].

End Demo.

(** ** The vocabulary of the properties *)

Module Spec.
Import Str.

(** The text [using] followed by a whitespace character starts [s]. *)
Definition using_at (s : string) : bool :=
  match strip_prefix "using" s with
  | Some (String c _) => is_space c
  | _ => false
  end.

(** A header has a [using] clause when the text [using] followed by a
    whitespace character occurs somewhere in it. *)
Fixpoint has_using_clause (header : string) : bool :=
  using_at header
  || match header with
     | EmptyString => false
     | String _ rest => has_using_clause rest
     end.

(** The two additive operators, each with its in-place method, its copy
    method and the operation on magnitudes. *)
Inductive additive : Type := Add | Sub.

Definition combine (op : additive) : Q → Q → Q :=
  match op with Add => Qplus | Sub => Qminus end.

Definition in_place (E : Quantity.Env) (op : additive) :=
  match op with Add => Quantity.__iadd__ E | Sub => Quantity.__isub__ E end.

Definition copy_form (E : Quantity.Env) (op : additive) :=
  match op with Add => Quantity.__add__ E | Sub => Quantity.__sub__ E end.

Definition is_quantity (x : Quantity.pyobj) : bool :=
  match x with Quantity.PyQuantity _ => true | _ => false end.

(** The kinds of [units] argument the sentence on construction names:
    [None], a [UnitsContainer], a string, a Quantity. *)
Definition named_in_claim (x : Quantity.pyobj) : bool :=
  match x with
  | Quantity.PyNone | Quantity.PyUnitsContainer _
  | Quantity.PyStr _ | Quantity.PyQuantity _ => true
  | _ => false
  end.

(** The kinds of [units] argument the constructor has a branch for. *)
Definition accepted_units (x : Quantity.pyobj) : bool :=
  match x with
  | Quantity.PyNone | Quantity.PyUnitsContainer _ | Quantity.PyUnitDefinition _
  | Quantity.PyStr _ | Quantity.PyQuantity _ => true
  | _ => false
  end.

(** A registry whose [_to_magnitude] hands a number back as it is. *)
Definition scalar_magnitudes (E : Quantity.Env) : Prop :=
  ∀ n : Q, Quantity._to_magnitude E (Quantity.PyNum n) = Ok n.

(** The entry of [base_units] for [root_unit] in the System a construction
    returned. *)
Definition base_units_entry (r : result System.ref * System.Registry)
    (root_unit : string) : option (gmap string Q) :=
  match r.1 with
  | Ok system =>
      match System.objects r.2 !! system with
      | Some s => System.base_units s !! root_unit
      | None => None
      end
  | Raise _ => None
  end.

(** The text [pat] occurs in [s]. *)
Fixpoint occurs (pat s : string) : bool :=
  match strip_prefix pat s with
  | Some _ => true
  | None =>
      match s with
      | EmptyString => false
      | String _ rest => occurs pat rest
      end
  end.

(** The number of occurrences of the character [c] in [s]. *)
Fixpoint count_char (c : ascii) (s : string) : nat :=
  match s with
  | EmptyString => 0
  | String a rest => (if Ascii.eqb a c then 1 else 0) + count_char c rest
  end.

Fixpoint all_chars (p : ascii → bool) (s : string) : bool :=
  match s with
  | EmptyString => true
  | String a rest => p a && all_chars p rest
  end.

(** A name: a non-empty run of word characters. *)
Definition is_name (s : string) : bool := truthy s && all_chars is_word s.

(** The exception of [new_unit, old_unit = line.split(":")] when the line
    splits in more than two pieces. *)
Definition unpack_error : exn :=
  ValueError "too many values to unpack (expected 2)".

(** The text of a rule and of a whole definition, in the syntax the
    docstring of [SystemDefinition] gives: the header with its [using]
    clause, then one line per rule, [new_unit : old_unit] or [new_unit]. *)
Definition render_rule (r : SystemDefinition.rule) : Z * string :=
  let '(lineno, new_unit, old_unit) := r in
  (lineno, match old_unit with
           | Some old_unit => new_unit +:+ " : " +:+ old_unit
           | None => new_unit
           end).

Definition render (lineno : Z) (sd : SystemDefinition.t) : list (Z * string) :=
  (lineno, "@system " +:+ SystemDefinition.name sd +:+ " using "
           +:+ String.concat ", " (SystemDefinition.using_group_names sd))
  :: (render_rule <$> SystemDefinition.unit_replacements sd).

Definition rule_names (r : SystemDefinition.rule) : bool :=
  let '(_, new_unit, old_unit) := r in
  is_name new_unit
  && match old_unit with Some old_unit => is_name old_unit | None => true end.

(** A definition made of names, with at least one group. *)
Definition well_formed (sd : SystemDefinition.t) : bool :=
  is_name (SystemDefinition.name sd)
  && forallb rule_names (SystemDefinition.unit_replacements sd)
  && match SystemDefinition.using_group_names sd with [] => false | _ => true end
  && forallb is_name (SystemDefinition.using_group_names sd).

Section Rules.
Context (get_root_func : string → result (Q * UnitsContainer)).
Context (units_str : UnitsContainer → string).

(** The three ways a replacement rule fails: a bare [new_unit] whose root
    expansion has more than one term; an [old_unit] that is not a root
    unit; an [old_unit] that is no term of the root expansion of
    [new_unit]. *)
Inductive failing_rule : SystemDefinition.rule → Prop :=
| bare_ambiguous lineno new_unit factor root :
    get_root_func new_unit = Ok (factor, root) →
    (1 < size root)%nat →
    failing_rule (lineno, new_unit, None)
| old_not_root lineno new_unit old_unit factor root :
    get_root_func old_unit = Ok (factor, root) →
    old_unit ≠ units_str root →
    failing_rule (lineno, new_unit, Some old_unit)
| old_absent lineno new_unit old_unit factor root :
    get_root_func new_unit = Ok (factor, root) →
    root !! old_unit = None →
    failing_rule (lineno, new_unit, Some old_unit).
End Rules.

End Spec.

(** * Properties *)

(** ** Strings *)

Section StrFacts.
Import Str Spec.

Lemma span_app p s : (span p s).1 +:+ (span p s).2 = s.
Proof.
  induction s as [|c s IH]; simpl; [done|].
  destruct (p c); [|done].
  destruct (span p s) as [a b]; simpl in *. by rewrite <- IH.
Qed.

Lemma strip_prefix_Some p s r : strip_prefix p s = Some r → s = p +:+ r.
Proof.
  revert s; induction p as [|a p IH]; intros s; simpl.
  - by intros [= ->].
  - destruct s as [|b s]; [done|].
    destruct (Ascii.eqb_spec a b) as [->|]; [|done].
    intros H. rewrite (IH _ H). reflexivity.
Qed.

Lemma has_using_clause_here s : using_at s = true → has_using_clause s = true.
Proof. intros H. destruct s; cbn [has_using_clause]; by rewrite H. Qed.

Lemma has_using_clause_app pre s :
  has_using_clause s = true → has_using_clause (pre +:+ s) = true.
Proof.
  intros H. induction pre as [|c pre IH]; [done|].
  change (String c pre +:+ s) with (String c (pre +:+ s)).
  cbn [has_using_clause]. rewrite IH. apply orb_true_r.
Qed.

Lemma has_using_clause_span p s :
  has_using_clause (span p s).2 = true → has_using_clause s = true.
Proof.
  intros H. rewrite <- (span_app p s). by apply has_using_clause_app.
Qed.

End StrFacts.

(** ** [SystemDefinition.from_lines] *)

Section SystemDefinitionFacts.
Import Str Spec SystemDefinition.

(** When the pattern captures [used_groups], the text has a [using]
    clause. *)
Lemma match_header_at_groups s nm g :
  match_header_at s = Some (nm, Some g) → has_using_clause s = true.
Proof.
  unfold match_header_at.
  destruct (strip_prefix "@system" s) as [r1|] eqn:H1; [|done].
  destruct (span is_space r1) as [ws r2] eqn:H2.
  destruct (truthy ws); [|done].
  destruct (span is_word r2) as [nm' r3] eqn:H3.
  destruct (truthy nm'); [|done].
  destruct (span is_space r3) as [ws' r4] eqn:H4.
  destruct (strip_prefix "using" r4) as [[|c r5]|] eqn:H5; try done.
  destruct (is_space c) eqn:Hc; [|done].
  intros _.
  assert (has_using_clause r4 = true) as Hr4.
  { apply has_using_clause_here. unfold using_at. by rewrite H5. }
  apply strip_prefix_Some in H1 as ->.
  apply has_using_clause_app, (has_using_clause_span is_space).
  rewrite H2. simpl. apply (has_using_clause_span is_word).
  rewrite H3. simpl. apply (has_using_clause_span is_space).
  by rewrite H4.
Qed.

Lemma header_search_groups s nm g :
  header_search s = Some (nm, Some g) → has_using_clause s = true.
Proof.
  induction s as [|c s IH]; cbn [header_search has_using_clause].
  - destruct (match_header_at EmptyString) as [r|] eqn:H; [|done].
    intros [= ->]. by apply match_header_at_groups in H.
  - destruct (match_header_at (String c s)) as [r|] eqn:H.
    + intros [= ->]. by apply match_header_at_groups in H.
    + intros H'. rewrite (IH H'). apply orb_true_r.
Qed.

(** C9: when the header line has no [using] clause (and is a header the
    pattern finds, followed by rule lines that parse), [from_lines] returns
    a definition whose [using_group_names] is the one-element tuple
    [("root",)]. *)
Theorem from_lines_default_group lineno header lines nm groups rules :
  has_using_clause header = false →
  header_search header = Some (nm, groups) →
  for_each parse_rule lines = Ok rules →
  from_lines ((lineno, header) :: lines) = Ok (mk (strip nm) rules ["root"]).
Proof.
  intros Hno Hsearch Hrules. unfold from_lines. rewrite Hsearch.
  destruct groups as [g|].
  - apply header_search_groups in Hsearch. congruence.
  - rewrite Hrules. reflexivity.
Qed.

Lemma from_lines_default_group_witness :
  from_lines [(1%Z, "@system mysys")] = Ok (mk "mysys" [] ["root"]).
Proof.
  apply (from_lines_default_group 1%Z "@system mysys" [] "mysys" None []);
    reflexivity.
Defined.

Example from_lines_mks :
  from_lines
    [(1%Z, "@system mks using international, extra");
     (2%Z, "kilogram : gram"); (3%Z, "  meter")]
  = Ok (mk "mks" [(2%Z, "kilogram", Some "gram"); (3%Z, "meter", None)]
           ["international"; "extra"]).
Proof. reflexivity. Qed.

Example from_lines_bad_header :
  from_lines [(1%Z, "@sys mks")]
  = Raise (ValueError "Invalid System header syntax '@sys mks'").
Proof. reflexivity. Qed.

End SystemDefinitionFacts.

(** ** [_Quantity] *)

Ltac unfold_bind := unfold mbind, mret, result_bind, result_ret, bind in *.

Section QuantityFacts.
Import Quantity Spec.
Context (E : Env).

Local Open Scope Q_scope.

Lemma lt_irrefl x : lt x x = false.
Proof.
  unfold lt. apply negb_false_iff, Qle_bool_iff, Qle_refl.
Qed.

(** The call [self.__class__(m, u)] that [__copy__] makes is the branch of
    the constructor for a [UnitsContainer] or a [UnitDefinition]. *)
Lemma new_of_units value u : __new__ E value (py_of_units u) = new_plain E value u.
Proof. by destruct u. Qed.

Lemma copy_scalar q :
  scalar_magnitudes E → __copy__ E q = Ok (mk (_magnitude q) (_units q) None).
Proof. intros H. unfold __copy__, new_plain. by rewrite H. Qed.

Lemma dimensionality_result q d q' :
  dimensionality E q = Ok (d, q') →
  q' = mk (_magnitude q) (_units q) (Some d).
Proof.
  unfold dimensionality. destruct q as [m u [c|]]; simpl.
  - by intros [= -> <-].
  - unfold_bind. destruct (base_dimensionality_of E u); [|done].
    by intros [= -> <-].
Qed.

(** [to] converts the magnitude with the registry and takes the units of
    the target; the copy it works on has no memo. *)
Lemma to_quantity q o :
  scalar_magnitudes E →
  to E q (PyQuantity o)
  = m ← convert E (_magnitude q) (_units q) (_units o);
    Ok (mk m (_units o) None).
Proof. intros H. unfold to. rewrite (copy_scalar _ H). reflexivity. Qed.

Lemma convert_to_reference_scalar q factor units :
  scalar_magnitudes E →
  base_units_of E (_units q) = Ok (factor, units) →
  convert_to_reference E q = Ok (mk (_magnitude q * factor) (UnitsC units) None).
Proof.
  intros H Hb. unfold convert_to_reference. rewrite Hb. simpl.
  unfold new_plain. by rewrite H.
Qed.

(** [dimensionless] reads the magnitude and the units only. *)
Lemma dimensionless_memo m u c : dimensionless E (mk m u c) = dimensionless E (mk m u None).
Proof. reflexivity. Qed.

(** What [__lt__] computes for two Quantities of equal dimensionality and
    different units: the reference magnitude of the left operand compared
    with itself, which is false. *)
Lemma lt_different_units a b d1 a1 d2 b1 r :
  units_eq E (_units a) (_units b) = false →
  dimensionality E a = Ok (d1, a1) →
  dimensionality E b = Ok (d2, b1) →
  dim_eq E d1 d2 = true →
  convert_to_reference E a = Ok r →
  __lt__ E a (PyQuantity b) = Ok false.
Proof.
  intros Hu Ha Hb Hd Hr. unfold __lt__. rewrite Hu, Ha. simpl.
  rewrite Hb. simpl. rewrite Hd. simpl.
  apply dimensionality_result in Ha as ->.
  change (convert_to_reference E (mk (_magnitude a) (_units a) (Some d1)))
    with (convert_to_reference E a).
  rewrite Hr. simpl. by rewrite lt_irrefl.
Qed.

(** C3: addition and subtraction, in place and as a copy.  The copy form
    is the in-place form run on a copy of the left operand.  With a
    Quantity on the right, a different dimensionality raises
    [DimensionalityError]; an equal dimensionality with different units
    converts the right magnitude to the units of the left before the
    magnitudes are combined.  With another object on the right, the
    operation combines the magnitudes when the left operand is
    dimensionless and raises [DimensionalityError] when it is not. *)
Theorem additive_operators (op : additive) (self : t) :
  scalar_magnitudes E →
  (∀ other,
     copy_form E op self other
     = in_place E op (mk (_magnitude self) (_units self) None) other)
  ∧ (∀ o d1 s1 d2 o1,
       dimensionality E self = Ok (d1, s1) →
       dimensionality E o = Ok (d2, o1) →
       in_place E op self (PyQuantity o)
       = if dim_eq E d1 d2 then
           if units_eq E (_units self) (_units o) then
             Ok (mk (combine op (_magnitude self) (_magnitude o))
                    (_units self) (Some d1))
           else
             m ← convert E (_magnitude o) (_units o) (_units self);
             Ok (mk (combine op (_magnitude self) m) (_units self) (Some d1))
         else Raise DimensionalityError)
  ∧ (∀ other (b : bool),
       is_quantity other = false →
       dimensionless E self = Ok b →
       in_place E op self other
       = if b then
           m ← _to_magnitude E other;
           Ok (mk (combine op (_magnitude self) m) (_units self)
                  (_dimensionality self))
         else Raise DimensionalityError).
Proof.
  intros Hmag. split; [|split].
  - intros other. destruct op; simpl;
      unfold __add__, __sub__, add_sub; by rewrite (copy_scalar _ Hmag).
  - intros o d1 s1 d2 o1 Hs Ho.
    assert (in_place E op self (PyQuantity o)
            = iadd_sub E self (PyQuantity o) (combine op)) as ->
      by (by destruct op).
    unfold iadd_sub. rewrite Hs. simpl. rewrite Ho. simpl.
    apply dimensionality_result in Hs as ->.
    apply dimensionality_result in Ho as ->. simpl.
    destruct (dim_eq E d1 d2); simpl; [|done].
    destruct (units_eq E (_units self) (_units o)); [done|].
    rewrite (to_quantity _ _ Hmag). simpl.
    by destruct (convert E (_magnitude o) (_units o) (_units self)).
  - intros other b Hq Hd.
    assert (in_place E op self other = iadd_sub E self other (combine op)) as ->
      by (by destruct op).
    unfold iadd_sub.
    destruct other; try discriminate Hq; rewrite Hd; simpl; by destruct b.
Qed.

(** C4: two Quantities with non-zero magnitudes, different units and
    incompatible dimensionality, so that the conversion the registry is
    asked for raises [DimensionalityError]: [==] returns [False], while
    [<] and the operators derived from it raise the error. *)
Theorem eq_recovers_dimensionality_error a b d1 a1 d2 b1 :
  scalar_magnitudes E →
  _eq (_magnitude a) 0 = false →
  _eq (_magnitude b) 0 = false →
  units_eq E (_units a) (_units b) = false →
  dimensionality E a = Ok (d1, a1) →
  dimensionality E b = Ok (d2, b1) →
  dim_eq E d1 d2 = false →
  convert E (_magnitude a) (_units a) (_units b) = Raise DimensionalityError →
  __eq__ E a (PyQuantity b) = Ok false
  ∧ __lt__ E a (PyQuantity b) = Raise DimensionalityError
  ∧ __le__ E a (PyQuantity b) = Raise DimensionalityError
  ∧ __gt__ E a (PyQuantity b) = Raise DimensionalityError
  ∧ __ge__ E a (PyQuantity b) = Raise DimensionalityError.
Proof.
  intros Hmag Ha0 Hb0 Hu Ha Hb Hd Hc.
  assert (__lt__ E a (PyQuantity b) = Raise DimensionalityError) as Hlt.
  { unfold __lt__. rewrite Hu, Ha. simpl. rewrite Hb. simpl. by rewrite Hd. }
  split; [|split; [done|]].
  - unfold __eq__. rewrite Ha0, Hu. simpl.
    rewrite (to_quantity _ _ Hmag), Hc. reflexivity.
  - unfold __le__, __gt__, __ge__. by rewrite Hlt.
Qed.

(** C5: when both magnitudes are zero, [==] returns the outcome of
    comparing the two dimensionalities, whatever the units are. *)
Theorem eq_zero_magnitudes a b d1 a1 d2 b1 :
  _eq (_magnitude a) 0 = true →
  _eq (_magnitude b) 0 = true →
  dimensionality E a = Ok (d1, a1) →
  dimensionality E b = Ok (d2, b1) →
  __eq__ E a (PyQuantity b) = Ok (dim_eq E d1 d2).
Proof.
  intros Ha0 Hb0 Ha Hb. unfold __eq__. rewrite Ha0, Hb0. simpl.
  rewrite Ha. simpl. by rewrite Hb.
Qed.

(** C7: for a dimensionless Quantity [q] and a number [n], the reflected
    subtraction is the subtraction: both return the Quantity of magnitude
    [q.magnitude - n] with the units of [q]. *)
Theorem rsub_is_sub q n :
  scalar_magnitudes E →
  dimensionless E q = Ok true →
  __rsub__ E q (PyNum n) = __sub__ E q (PyNum n)
  ∧ __rsub__ E q (PyNum n) = Ok (mk (_magnitude q - n) (_units q) None).
Proof.
  intros Hmag Hd. split; [reflexivity|].
  unfold __rsub__, __sub__, add_sub. rewrite (copy_scalar _ Hmag). simpl.
  unfold __isub__, iadd_sub.
  destruct q as [m u c]. rewrite dimensionless_memo in Hd.
  simpl. rewrite Hd. simpl. by rewrite Hmag.
Qed.

(** C10, as amended: a [units] argument that is not [None], not a
    [UnitsContainer], not a [UnitDefinition], not a string and not a
    Quantity makes the constructor raise a [TypeError] whose message ends
    with the type of the argument. *)
Theorem new_rejects_other_units value units :
  accepted_units units = false →
  __new__ E value units
  = Raise (TypeError ("units must be of type str, Quantity or UnitsContainer; not "
                      +:+ type_repr units +:+ ".")).
Proof. intros H. by destruct units. Qed.

End QuantityFacts.

(** ** [System] *)

Section SystemFacts.
Import SystemDefinition System Spec.

(** *** Membership *)

Lemma elem_of_collect_members d system_name group_names acc u :
  u ∈ (collect_members d system_name group_names acc).1
  ↔ u ∈ acc.1 ∨ ∃ g m, g ∈ group_names ∧ d !! g = Some m ∧ u ∈ m.
Proof.
  revert acc. induction group_names as [|g gs IH]; intros acc; simpl.
  - split; [by left|]. intros [H|(g & m & Hg & _)]; [done|].
    by apply elem_of_nil in Hg.
  - rewrite IH. destruct (d !! g) as [m|] eqn:Hdg; simpl.
    + rewrite elem_of_union. split.
      * intros [[H|H]|(g' & m' & Hg' & Hd & Hu)]; [by left| |].
        -- right. exists g, m. split; [apply list_elem_of_here|done].
        -- right. exists g', m'. split; [by apply list_elem_of_further|done].
      * intros [H|(g' & m' & Hg' & Hd & Hu)]; [by left; left|].
        apply elem_of_cons in Hg' as [->|Hg'].
        -- left; right. congruence.
        -- right. by exists g', m'.
    + split.
      * intros [H|(g' & m' & Hg' & Hd & Hu)]; [by left|].
        right. exists g', m'. split; [by apply list_elem_of_further|done].
      * intros [H|(g' & m' & Hg' & Hd & Hu)]; [by left|].
        apply elem_of_cons in Hg' as [->|Hg']; [congruence|].
        right. by exists g', m'.
Qed.

(** With the memo empty, [members] returns the union of the members of
    the used groups the registry resolves. *)
Lemma elem_of_members_fresh d self u :
  _computed_members self = None →
  u ∈ (members d self).1.1
  ↔ ∃ g m, g ∈ _used_groups self ∧ d !! g = Some m ∧ u ∈ m.
Proof.
  intros Hnone. unfold members. rewrite Hnone. simpl.
  rewrite elem_of_collect_members. simpl. split.
  - intros [H|(g & m & Hg & H)]; [by apply not_elem_of_empty in H|].
    exists g, m. by rewrite <- elem_of_elements.
  - intros (g & m & Hg & H). right. exists g, m. by rewrite elem_of_elements.
Qed.

(** Reading [members] leaves the used groups as they are. *)
Lemma members_used_groups d self :
  _used_groups (members d self).2 = _used_groups self.
Proof. unfold members. by destruct (_computed_members self). Qed.

Lemma used_groups_add group_names self :
  _used_groups (add_groups group_names self)
  = _used_groups self ∪ list_to_set group_names.
Proof. reflexivity. Qed.

Lemma used_groups_remove group_names self :
  _used_groups (remove_groups group_names self)
  = _used_groups self ∖ list_to_set group_names.
Proof. reflexivity. Qed.

(** C8, as amended: for a group [x] the registry resolves, [members] read
    after [add_groups(x)] includes every member of [x]; read again after
    [remove_groups(x)], it is the union of the members of the used groups
    that remain, so that a member of [x] is left out unless a remaining
    used group has it. *)
Theorem members_after_add_remove d self x m :
  d !! x = Some m →
  m ⊆ (members d (add_groups [x] self)).1.1
  ∧ ∀ u,
      u ∈ (members d (remove_groups [x]
                        (members d (add_groups [x] self)).2)).1.1
      ↔ ∃ g mg, g ∈ _used_groups self ∧ g ≠ x ∧ d !! g = Some mg ∧ u ∈ mg.
Proof.
  intros Hx. split.
  - intros u Hu. apply elem_of_members_fresh; [done|].
    exists x, m. split; [|done].
    rewrite used_groups_add, elem_of_union, elem_of_list_to_set.
    right. apply list_elem_of_here.
  - intros u. rewrite elem_of_members_fresh by done.
    rewrite used_groups_remove, members_used_groups, used_groups_add.
    split.
    + intros (g & mg & Hin & Hdg & Hu). exists g, mg.
      rewrite elem_of_difference, elem_of_union, elem_of_list_to_set,
        list_elem_of_singleton in Hin.
      intuition congruence.
    + intros (g & mg & Hin & Hne & Hdg & Hu). exists g, mg.
      rewrite elem_of_difference, elem_of_union, elem_of_list_to_set,
        list_elem_of_singleton.
      intuition congruence.
Qed.

(** *** Construction from a definition *)

Context (get_root_func : string → result (Q * UnitsContainer)).
Context (units_str : UnitsContainer → string).

Lemma apply_rule_failing base_unit_names r :
  failing_rule get_root_func units_str r →
  ∃ e, apply_rule get_root_func units_str base_unit_names r = Raise e.
Proof.
  intros [lineno new_unit factor root Hroot Hsize
         |lineno new_unit old_unit factor root Hroot Hne
         |lineno new_unit old_unit factor root Hroot Habsent]; simpl.
  - rewrite Hroot. simpl. unfold to_units_container.
    destruct (Nat.eqb_spec (size root) 1) as [Heq|_]; [lia|]. simpl. eauto.
  - rewrite Hroot. simpl.
    destruct (String.eqb_spec old_unit (units_str root)); [done|]. simpl. eauto.
  - destruct (get_root_func old_unit) as [[f0 r0]|e]; simpl; [|eauto].
    destruct (String.eqb old_unit (units_str r0)); simpl; [|eauto].
    rewrite Hroot. simpl. unfold to_units_container. rewrite Habsent. eauto.
Qed.

Lemma apply_rules_failing rules :
  Exists (failing_rule get_root_func units_str) rules →
  ∀ base_unit_names,
    ∃ e, apply_rules get_root_func units_str base_unit_names rules = Raise e.
Proof.
  induction 1 as [r rules Hr|r rules _ IH]; intros acc; simpl.
  - destruct (apply_rule_failing acc r Hr) as [e ->]. simpl. eauto.
  - destruct (apply_rule get_root_func units_str acc r) as [acc'|e]; simpl; eauto.
Qed.

Lemma py_div_nonzero a b : ¬ (b == 0)%Q → py_div a b = Ok (a / b)%Q.
Proof.
  intros Hb. unfold py_div. destruct (Qeq_bool b 0) eqn:H; [|done].
  by apply Qeq_bool_eq in H.
Qed.

(** With no zero exponent among the items, the comprehension yields every
    item other than [old_unit] with [-1 / value]. *)
Lemma invert_others_ok old_unit items :
  (∀ k v, (k, v) ∈ items → ¬ (v == 0)%Q) →
  invert_others old_unit items
  = Ok ((λ kv, (kv.1, (-1 / kv.2)%Q)) <$> filter (λ kv, kv.1 ≠ old_unit) items).
Proof.
  unfold invert_others. induction items as [|[k v] items IH]; intros Hnz; [done|].
  rewrite filter_cons. simpl.
  assert (∀ k' v', (k', v') ∈ items → ¬ (v' == 0)%Q) as Hnz'.
  { intros k' v' Hin. apply (Hnz k'). by apply list_elem_of_further. }
  destruct (decide (k ≠ old_unit)); simpl; [|by apply IH].
  rewrite py_div_nonzero by (apply (Hnz k), list_elem_of_here). simpl.
  by rewrite (IH Hnz').
Qed.

(** What the explicit rule [new_unit : old_unit] stores, for an expansion
    in canonical form (no zero exponent): the entry of [old_unit] maps
    [new_unit] to [1 / e], where [e] is the exponent of [old_unit], and maps
    every other root term, of exponent [v], to [-1 / v]. *)
Lemma apply_rule_explicit base_unit_names lineno new_unit old_unit f0 root_old
    factor root e :
  get_root_func old_unit = Ok (f0, root_old) →
  old_unit = units_str root_old →
  get_root_func new_unit = Ok (factor, root) →
  root !! old_unit = Some e →
  (∀ k v, root !! k = Some v → ¬ (v == 0)%Q) →
  ∃ entry : gmap string Q,
    apply_rule get_root_func units_str base_unit_names
      (lineno, new_unit, Some old_unit)
    = Ok (<[old_unit := entry]> base_unit_names)
    ∧ entry !! new_unit = Some (1 / e)%Q
    ∧ ∀ k v, k ≠ old_unit → k ≠ new_unit → root !! k = Some v →
             entry !! k = Some (-1 / v)%Q.
Proof.
  intros Hold Hroot Hnew He Hnz. simpl. rewrite Hold. simpl.
  rewrite <- Hroot, String.eqb_refl. simpl. rewrite Hnew. simpl.
  unfold to_units_container. rewrite He.
  rewrite invert_others_ok
    by (intros k v Hin; apply (Hnz k), elem_of_map_to_list, Hin).
  simpl. rewrite py_div_nonzero by apply (Hnz _ _ He). simpl.
  eexists. split; [reflexivity|]. split; [apply lookup_insert_eq|].
  intros k v Hko Hkn Hk. rewrite lookup_insert_ne by done.
  apply elem_of_list_to_map_1'.
  - intros y Hy. apply list_elem_of_fmap in Hy as ([k' v'] & [= -> ->] & Hin).
    apply list_elem_of_filter in Hin as [_ Hin].
    apply elem_of_map_to_list in Hin. simpl in *. congruence.
  - apply list_elem_of_fmap. exists (k, v). split; [done|].
    apply list_elem_of_filter. split; [done|]. by apply elem_of_map_to_list.
Qed.

(** C6: when one of the replacement rules of the definition fails,
    [from_definition] raises, and the registry is as it was before the
    call: no System has been registered under the name of the
    definition. *)
Theorem from_definition_failing_rule system_definition w :
  Exists (failing_rule get_root_func units_str)
         (unit_replacements system_definition) →
  ∃ e, from_definition get_root_func units_str system_definition w = (Raise e, w).
Proof.
  intros H. unfold from_definition.
  destruct (apply_rules_failing _ H ∅) as [e ->]. eauto.
Qed.

End SystemFacts.

(** ** The properties on the small registry *)

Section Examples.
Import Quantity Spec Demo.

Local Open Scope Q_scope.

Lemma demo_scalar_magnitudes : scalar_magnitudes env.
Proof. intros n. reflexivity. Qed.

(** C1: one meter is less than one kilometer, and their reference
    magnitudes are 1 and 1000; [__lt__] compares the reference magnitude of
    the left operand with itself and answers [False]. *)
Theorem lt_meter_kilometer :
  __lt__ env (quantity 1 "meter") (PyQuantity (quantity 1 "kilometer")) = Ok false
  ∧ _magnitude <$> from_result (convert_to_reference env (quantity 1 "meter"))
    = Some 1
  ∧ _magnitude <$> from_result (convert_to_reference env (quantity 1 "kilometer"))
    = Some 1000
  ∧ lt 1 1000 = true.
Proof. split; [|split; [|split]]; vm_compute; reflexivity. Qed.

Lemma additive_operators_witness :
  __iadd__ env (quantity 1 "meter") (PyQuantity (quantity 1 "second"))
  = Raise DimensionalityError
  ∧ _magnitude <$> from_result
      (__iadd__ env (quantity 1 "meter") (PyQuantity (quantity 1 "kilometer")))
    = Some 1001
  ∧ __add__ env (quantity 1 "meter") (PyNum 2) = Raise DimensionalityError.
Proof.
  destruct (additive_operators env Add (quantity 1 "meter") demo_scalar_magnitudes)
    as (Hcopy & Hquantity & Hother).
  split; [|split].
  - exact (Hquantity (quantity 1 "second") _ _ _ _ eq_refl eq_refl).
  - change (__iadd__ env) with (in_place env Add).
    rewrite (Hquantity (quantity 1 "kilometer") _ _ _ _ eq_refl eq_refl).
    reflexivity.
  - change (__add__ env) with (copy_form env Add).
    rewrite (Hcopy (PyNum 2)).
    exact (Hother (PyNum 2) false eq_refl eq_refl).
Defined.

Lemma eq_recovers_dimensionality_error_witness :
  __eq__ env (quantity 1 "meter") (PyQuantity (quantity 1 "second")) = Ok false
  ∧ __lt__ env (quantity 1 "meter") (PyQuantity (quantity 1 "second"))
    = Raise DimensionalityError.
Proof.
  destruct (eq_recovers_dimensionality_error env
              (quantity 1 "meter") (quantity 1 "second") _ _ _ _
              demo_scalar_magnitudes eq_refl eq_refl eq_refl eq_refl eq_refl
              eq_refl eq_refl) as (Heq & Hlt & _).
  split; [exact Heq|exact Hlt].
Defined.

(** [Quantity(0, "meter") == Quantity(0, "second")] is [False]. *)
Lemma eq_zero_magnitudes_witness :
  __eq__ env (quantity 0 "meter") (PyQuantity (quantity 0 "second")) = Ok false.
Proof.
  exact (eq_zero_magnitudes env (quantity 0 "meter") (quantity 0 "second")
           _ _ _ _ eq_refl eq_refl eq_refl eq_refl).
Defined.

Example eq_zero_meter_kilometer :
  __eq__ env (quantity 0 "meter") (PyQuantity (quantity 0 "kilometer")) = Ok true.
Proof. vm_compute. reflexivity. Qed.

Lemma rsub_is_sub_witness :
  __rsub__ env (mk 5 (UnitsC ∅) None) (PyNum 2)
  = Ok (mk (5 - 2) (UnitsC ∅) None).
Proof.
  exact (proj2 (rsub_is_sub env (mk 5 (UnitsC ∅) None) 2
                  demo_scalar_magnitudes eq_refl)).
Defined.

(** C10: a [UnitDefinition] is none of [None], a [UnitsContainer], a string
    or a Quantity, and the constructor accepts it. *)
Lemma new_accepts_unit_definition :
  named_in_claim (PyUnitDefinition {| ud_name := "meter" |}) = false
  ∧ __new__ env (PyNum 3) (PyUnitDefinition {| ud_name := "meter" |})
    = Ok (mk 3 (UnitD {| ud_name := "meter" |}) None)
  ∧ ¬ ∃ msg, __new__ env (PyNum 3) (PyUnitDefinition {| ud_name := "meter" |})
             = Raise (TypeError msg).
Proof.
  split; [reflexivity|]. split; [reflexivity|]. intros [msg H]. discriminate H.
Qed.

Lemma new_rejects_other_units_witness :
  __new__ env (PyNum 3) (PyNum 5)
  = Raise (TypeError ("units must be of type str, Quantity or UnitsContainer; "
                      +:+ "not <class 'fractions.Fraction'>.")).
Proof. exact (new_rejects_other_units env (PyNum 3) (PyNum 5) eq_refl). Defined.

End Examples.

Section SystemExamples.
Import SystemDefinition System Spec Demo.

Local Open Scope Q_scope.

Lemma members_after_add_remove_witness :
  metric_members ⊆ (members groups (add_groups ["metric"] imperial_system)).1.1.
Proof.
  exact (proj1 (members_after_add_remove groups imperial_system "metric"
                  metric_members eq_refl)).
Defined.

(** C8: [second] is a member of the group [metric] and of the group
    [imperial]; after [metric] has been added to and removed from a System
    that uses [imperial], [second] is still a member of the System. *)
Lemma members_keep_shared_unit :
  groups !! "metric" = Some metric_members
  ∧ "second" ∈ metric_members
  ∧ "second" ∈ (members groups
                  (remove_groups ["metric"]
                     (members groups (add_groups ["metric"] imperial_system)).2)).1.1.
Proof.
  split; [reflexivity|]. split.
  - apply (bool_decide_unpack _). vm_compute. exact I.
  - apply (bool_decide_unpack _). vm_compute. exact I.
Qed.

Lemma from_definition_failing_rule_witness :
  ∃ e, from_definition get_root_func units_str speed_definition empty_registry
       = (Raise e, empty_registry).
Proof.
  apply from_definition_failing_rule. apply Exists_cons_hd.
  apply (bare_ambiguous _ _ 2%Z "speed" 1 (<[ "meter" := 1 ]> {[ "second" := -1 ]})).
  - reflexivity.
  - vm_compute. lia.
Defined.

(** C2: [jerk] expands to [meter ** 2 * second ** -3].  For the rule
    [jerk : meter], the entry of [base_units] for [meter] maps [jerk] to
    [1/2], and maps [second] to [1/3], which is [-1] divided by the
    exponent [-3]; the exponent negated and divided by the exponent of
    [meter] is [3/2]. *)
Theorem from_definition_jerk_meter :
  let entry :=
    base_units_entry
      (from_definition get_root_func units_str jerk_definition empty_registry)
      "meter" in
  (λ d : gmap string Q, d !! "jerk") <$> entry = Some (Some (1 # 2))
  ∧ (λ d : gmap string Q, d !! "second") <$> entry = Some (Some (1 # 3))
  ∧ - (-3) / 2 == 3 # 2
  ∧ ¬ (1 # 3 == 3 # 2).
Proof.
  split; [vm_compute; reflexivity|]. split; [vm_compute; reflexivity|].
  split; [reflexivity|]. intros H. discriminate H.
Qed.

End SystemExamples.

(** * Further properties

    Properties of the rest of the two modules: the parser of system
    definitions, the membership memo and the registration of a System, the
    rules of [from_definition], [Lister], and the comparison, additive and
    unary operators of a Quantity. *)

(** ** More on strings *)

Section MoreStrFacts.
Import Str Spec.

Lemma word_not_space c : is_word c = true → is_space c = false.
Proof.
  unfold is_word, is_space. generalize (code c). intros n.
  rewrite !orb_true_iff, !andb_true_iff, !Nat.leb_le, Nat.eqb_eq.
  intros H. apply orb_false_iff. split; apply andb_false_iff;
    rewrite !Nat.leb_gt; lia.
Qed.

Lemma word_is_dot c : is_word c = true → is_dot c = true.
Proof.
  unfold is_word, is_dot. generalize (code c). intros n.
  rewrite !orb_true_iff, !andb_true_iff, !Nat.leb_le, Nat.eqb_eq.
  intros H. apply negb_true_iff, Nat.eqb_neq. lia.
Qed.

Lemma all_chars_app p a b :
  all_chars p (a +:+ b) = all_chars p a && all_chars p b.
Proof.
  induction a as [|c a IH]; [done|].
  change (String c a +:+ b) with (String c (a +:+ b)). simpl.
  by rewrite IH, andb_assoc.
Qed.

Lemma all_chars_impl (p q : ascii → bool) s :
  (∀ c, p c = true → q c = true) → all_chars p s = true → all_chars q s = true.
Proof.
  intros Hpq. induction s as [|c s IH]; simpl; [done|].
  rewrite !andb_true_iff. intros [Hc Hs]. auto.
Qed.

Lemma all_chars_span p s : all_chars p (span p s).1 = true.
Proof.
  induction s as [|c s IH]; simpl; [done|].
  destruct (p c) eqn:Hc; [|done].
  destruct (span p s) as [a b]; simpl in *. by rewrite Hc.
Qed.

(** [span] stops in front of a character that fails the test. *)
Lemma span_app_stop p a b :
  all_chars p a = true →
  match b with EmptyString => True | String c _ => p c = false end →
  span p (a +:+ b) = (a, b).
Proof.
  intros Ha Hb. induction a as [|c a IH].
  - destruct b as [|c b]; simpl; [done|]. by rewrite Hb.
  - change (String c a +:+ b) with (String c (a +:+ b)). simpl in *.
    apply andb_true_iff in Ha as [-> Ha]. by rewrite (IH Ha).
Qed.

Lemma span_all p s : all_chars p s = true → span p s = (s, EmptyString).
Proof.
  intros H. induction s as [|c s IH]; simpl in *; [done|].
  apply andb_true_iff in H as [-> H]. by rewrite (IH H).
Qed.

Lemma rstrip_no_space s :
  all_chars (λ c, negb (is_space c)) s = true → rstrip s = s.
Proof.
  induction s as [|c s IH]; simpl; [done|].
  rewrite andb_true_iff, negb_true_iff. intros [Hc Hs].
  rewrite (IH Hs), Hc. by destruct s.
Qed.

Lemma name_no_space s :
  all_chars is_word s = true → all_chars (λ c, negb (is_space c)) s = true.
Proof.
  apply all_chars_impl. intros c Hc. by rewrite (word_not_space c Hc).
Qed.

Lemma lstrip_word s : all_chars is_word s = true → lstrip s = s.
Proof.
  unfold lstrip. destruct s as [|c s]; simpl; [done|].
  rewrite andb_true_iff. intros [Hc _]. by rewrite (word_not_space c Hc).
Qed.

(** Stripping leaves a run of word characters as it is. *)
Lemma strip_word s : all_chars is_word s = true → strip s = s.
Proof.
  intros H. unfold strip. rewrite (lstrip_word s H).
  by apply rstrip_no_space, name_no_space.
Qed.

Lemma strip_name s : is_name s = true → strip s = s.
Proof. unfold is_name. rewrite andb_true_iff. intros [_ H]. by apply strip_word. Qed.

Lemma strip_cons_space c s : is_space c = true → strip (String c s) = strip s.
Proof. intros Hc. unfold strip, lstrip. simpl. rewrite Hc. by destruct (span is_space s). Qed.

(** Trailing text that strips to nothing is dropped; text that does not is
    kept with all that precedes it. *)
Lemma rstrip_app_blank a b :
  rstrip b = EmptyString → rstrip (a +:+ b) = rstrip a.
Proof.
  intros Hb. induction a as [|c a IH]; [done|].
  change (String c a +:+ b) with (String c (a +:+ b)). simpl. by rewrite IH.
Qed.

Lemma rstrip_app_kept a b :
  truthy (rstrip b) = true → rstrip (a +:+ b) = a +:+ rstrip b.
Proof.
  intros Hb. induction a as [|c a IH]; [done|].
  change (String c a +:+ b) with (String c (a +:+ b)). simpl. rewrite IH.
  destruct a as [|c' a]; simpl.
  - by destruct (rstrip b).
  - done.
Qed.

End MoreStrFacts.

Section MoreSplitFacts.
Import Str Spec.

Lemma split_no_sep sep s : count_char sep s = 0 → split sep s = [s].
Proof.
  induction s as [|c s IH]; simpl; [done|].
  destruct (Ascii.eqb c sep); simpl; [done|]. intros H. by rewrite (IH H).
Qed.

Lemma split_app sep a b :
  count_char sep a = 0 → split sep (a +:+ String sep b) = a :: split sep b.
Proof.
  induction a as [|c a IH].
  - intros _. change (EmptyString +:+ String sep b) with (String sep b).
    simpl. by rewrite Ascii.eqb_refl.
  - change (String c a +:+ String sep b) with (String c (a +:+ String sep b)).
    simpl. destruct (Ascii.eqb c sep); [done|]. simpl. intros H.
    by rewrite (IH H).
Qed.

Lemma length_split sep s : length (split sep s) = S (count_char sep s).
Proof.
  induction s as [|c s IH]; simpl; [done|].
  destruct (Ascii.eqb c sep); simpl; [by rewrite IH|].
  destruct (split sep s); simpl in *; lia.
Qed.

Lemma contains_char_count sep s :
  contains_char sep s = negb (count_char sep s =? 0)%nat.
Proof.
  induction s as [|c s IH]; simpl; [done|].
  destruct (Ascii.eqb c sep); simpl; [done|]. exact IH.
Qed.

Lemma count_char_app sep a b :
  count_char sep (a +:+ b) = (count_char sep a + count_char sep b)%nat.
Proof.
  induction a as [|c a IH]; [done|].
  change (String c a +:+ b) with (String c (a +:+ b)). simpl. rewrite IH. lia.
Qed.

Lemma count_char_all p sep s :
  p sep = false → all_chars p s = true → count_char sep s = 0.
Proof.
  intros Hsep. induction s as [|c s IH]; simpl; [done|].
  rewrite andb_true_iff. intros [Hc Hs].
  destruct (Ascii.eqb_spec c sep) as [->|]; [congruence|]. by rewrite (IH Hs).
Qed.

(** Stripping removes whitespace only, so it keeps every occurrence of a
    character that is not whitespace. *)
Lemma count_char_span sep s :
  is_space sep = false → count_char sep (span is_space s).2 = count_char sep s.
Proof.
  intros Hsep. induction s as [|c s IH]; simpl; [done|].
  destruct (is_space c) eqn:Hc; [|done].
  destruct (span is_space s) as [a b]; simpl in *.
  destruct (Ascii.eqb_spec c sep) as [->|]; [congruence|]. exact IH.
Qed.

Lemma count_char_rstrip sep s :
  is_space sep = false → count_char sep (rstrip s) = count_char sep s.
Proof.
  intros Hsep. induction s as [|c s IH]; simpl; [done|].
  destruct (rstrip s) as [|c' r] eqn:Hr.
  - simpl in IH. rewrite <- IH. destruct (is_space c) eqn:Hc; simpl.
    + destruct (Ascii.eqb_spec c sep) as [->|]; [congruence|done].
    + lia.
  - simpl in *. by rewrite IH.
Qed.

Lemma count_char_strip sep s :
  is_space sep = false → count_char sep (strip s) = count_char sep s.
Proof.
  intros Hsep. unfold strip, lstrip.
  by rewrite count_char_rstrip, count_char_span.
Qed.

End MoreSplitFacts.

Section MoreSystemDefinitionFacts.
Import Str Spec SystemDefinition.

Lemma lstrip_starts c s : is_space c = false → lstrip (String c s) = String c s.
Proof. intros Hc. unfold lstrip. simpl. by rewrite Hc. Qed.

Lemma name_inv s :
  is_name s = true →
  ∃ c r, s = String c r ∧ is_word c = true ∧ all_chars is_word s = true.
Proof.
  unfold is_name. destruct s as [|c r]; [done|]. simpl.
  rewrite andb_true_iff. intros [Hc Hr]. exists c, r. by rewrite Hc, Hr.
Qed.

Lemma append_assoc (a b c : string) : (a +:+ b) +:+ c = a +:+ (b +:+ c).
Proof.
  induction a as [|x a IH]; [done|].
  change ((String x a +:+ b) +:+ c) with (String x ((a +:+ b) +:+ c)).
  by rewrite IH.
Qed.

Lemma strip_rule_line new_unit old_unit :
  is_name new_unit = true → is_name old_unit = true →
  strip (new_unit +:+ " : " +:+ old_unit) = new_unit +:+ " : " +:+ old_unit.
Proof.
  intros Hn Ho.
  destruct (name_inv _ Hn) as (c & r & -> & Hc & Hnew).
  destruct (name_inv _ Ho) as (c' & r' & Hold_eq & Hc' & Hold).
  unfold strip.
  change (String c r +:+ " : " +:+ old_unit)
    with (String c (r +:+ " : " +:+ old_unit)).
  rewrite (lstrip_starts _ _ (word_not_space c Hc)).
  change (String c (r +:+ " : " +:+ old_unit))
    with (String c r +:+ " : " +:+ old_unit).
  assert (rstrip old_unit = old_unit) as Hro
    by apply rstrip_no_space, name_no_space, Hold.
  assert (truthy old_unit = true) as Ht by (by rewrite Hold_eq).
  rewrite rstrip_app_kept; rewrite rstrip_app_kept; rewrite ?Hro; done.
Qed.

Lemma split_rule_line new_unit old_unit :
  is_name new_unit = true → is_name old_unit = true →
  split ":" (new_unit +:+ " : " +:+ old_unit)
  = [new_unit +:+ " "; " " +:+ old_unit].
Proof.
  intros Hn Ho.
  destruct (name_inv _ Hn) as (c & r & _ & _ & Hnew).
  destruct (name_inv _ Ho) as (c' & r' & _ & _ & Hold).
  change (new_unit +:+ " : " +:+ old_unit)
    with (new_unit +:+ " " +:+ String ":" (" " +:+ old_unit)).
  rewrite <- (append_assoc new_unit " " (String ":" (" " +:+ old_unit))).
  rewrite split_app.
  2:{ rewrite count_char_app.
      by rewrite (count_char_all is_word ":" new_unit eq_refl Hnew). }
  rewrite split_no_sep; [done|].
  change (" " +:+ old_unit) with (String " " old_unit).
  cbn [count_char]. change (Ascii.eqb " " ":") with false.
  by rewrite (count_char_all is_word ":" old_unit eq_refl Hold).
Qed.

Lemma contains_rule_line new_unit old_unit :
  contains_char ":" (new_unit +:+ " : " +:+ old_unit) = true.
Proof.
  rewrite contains_char_count, !count_char_app.
  change (count_char ":" " : ") with 1.
  destruct (count_char ":" new_unit + (1 + count_char ":" old_unit))%nat eqn:H;
    [lia|done].
Qed.

Lemma strip_new_unit new_unit :
  is_name new_unit = true → strip (new_unit +:+ " ") = new_unit.
Proof.
  intros Hn. destruct (name_inv _ Hn) as (c & r & -> & Hc & Hnew).
  unfold strip.
  change (String c r +:+ " ") with (String c (r +:+ " ")).
  rewrite (lstrip_starts _ _ (word_not_space c Hc)).
  change (String c (r +:+ " ")) with (String c r +:+ " ").
  rewrite rstrip_app_blank by done.
  by apply rstrip_no_space, name_no_space.
Qed.

(** A rule written as [new_unit : old_unit], or as [new_unit] alone, parses
    back to the rule. *)
Lemma parse_rule_render r : rule_names r = true → parse_rule (render_rule r) = Ok r.
Proof.
  destruct r as [[lineno new_unit] [old_unit|]];
    unfold rule_names, render_rule, parse_rule;
    rewrite ?andb_true_iff, ?andb_true_r.
  - intros [Hn Ho].
    rewrite (strip_rule_line _ _ Hn Ho), contains_rule_line.
    rewrite (split_rule_line _ _ Hn Ho), (strip_new_unit _ Hn).
    change (" " +:+ old_unit) with (String " " old_unit).
    rewrite strip_cons_space by done. by rewrite (strip_name _ Ho).
  - intros [Hn _]. rewrite (strip_name _ Hn), contains_char_count.
    destruct (name_inv _ Hn) as (c & r & _ & _ & Hnew).
    by rewrite (count_char_all is_word ":" new_unit eq_refl Hnew).
Qed.

Lemma for_each_parse_rule_render rules :
  forallb rule_names rules = true →
  for_each parse_rule (render_rule <$> rules) = Ok rules.
Proof.
  induction rules as [|r rules IH]; [done|].
  cbn [forallb]. rewrite andb_true_iff. intros [Hr Hrules].
  rewrite fmap_cons. cbn [for_each].
  rewrite (parse_rule_render r Hr), (IH Hrules). reflexivity.
Qed.

(** The group names joined by a comma and a blank split and strip back to
    the names. *)
Lemma split_concat_names (gs : list string) :
  gs ≠ [] → forallb is_name gs = true →
  strip <$> split "," (String.concat ", " gs) = gs.
Proof.
  induction gs as [|g gs IH]; [done|]. intros _. simpl.
  rewrite andb_true_iff. intros [Hg Hgs].
  destruct (name_inv _ Hg) as (c & r & _ & _ & Hw).
  destruct gs as [|g' gs].
  - rewrite split_no_sep by apply (count_char_all is_word "," g eq_refl Hw).
    simpl. by rewrite (strip_word _ Hw).
  - change (g +:+ ", " +:+ String.concat ", " (g' :: gs))
      with (g +:+ String "," (String " " (String.concat ", " (g' :: gs)))).
    rewrite split_app by apply (count_char_all is_word "," g eq_refl Hw).
    rewrite fmap_cons, (strip_word _ Hw). f_equal.
    specialize (IH ltac:(done) Hgs).
    pose proof (length_split "," (String.concat ", " (g' :: gs))) as Hlen.
    cbn [split]. change (Ascii.eqb " " ",") with false. cbv iota.
    destruct (split "," (String.concat ", " (g' :: gs))) as [|w ws];
      [discriminate Hlen|].
    rewrite fmap_cons in IH |- *. rewrite <- IH. f_equal.
    by apply strip_cons_space.
Qed.

Lemma concat_names_dot (gs : list string) :
  forallb is_name gs = true → all_chars is_dot (String.concat ", " gs) = true.
Proof.
  induction gs as [|g gs IH]; simpl; [done|].
  rewrite andb_true_iff. intros [Hg Hgs].
  destruct (name_inv _ Hg) as (c & r & _ & _ & Hw).
  pose proof (all_chars_impl _ _ _ word_is_dot Hw) as Hd.
  destruct gs as [|g' gs]; [done|].
  rewrite !all_chars_app, Hd, (IH Hgs). done.
Qed.

Lemma concat_names_truthy (gs : list string) :
  gs ≠ [] → forallb is_name gs = true → truthy (String.concat ", " gs) = true.
Proof.
  destruct gs as [|g gs]; [done|]. intros _. simpl.
  rewrite andb_true_iff. intros [Hg _].
  destruct (name_inv _ Hg) as (c & r & -> & _ & _). by destruct gs.
Qed.

Lemma header_search_here s r :
  match_header_at s = Some r → header_search s = Some r.
Proof. intros H. destruct s; cbn [header_search]; by rewrite H. Qed.

(** The header written from a name and its groups is found by the pattern,
    with the name and the joined groups as its two captures. *)
Lemma header_search_render name (gs : list string) :
  is_name name = true → forallb is_name gs = true →
  header_search ("@system " +:+ name +:+ " using " +:+ String.concat ", " gs)
  = Some (name, Some (String.concat ", " gs)).
Proof.
  intros Hn Hgs.
  destruct (name_inv _ Hn) as (c & r & Hname & Hc & Hw).
  assert (match_header_at
            ("@system " +:+ name +:+ " using " +:+ String.concat ", " gs)
          = Some (name, Some (String.concat ", " gs))) as H.
  { unfold match_header_at.
    change (strip_prefix "@system"
              ("@system " +:+ name +:+ " using " +:+ String.concat ", " gs))
      with (Some (String " " (name +:+ " using " +:+ String.concat ", " gs))).
    cbv beta iota.
    assert (span is_space (String " " (name +:+ " using " +:+ String.concat ", " gs))
            = (" ", name +:+ " using " +:+ String.concat ", " gs)) as ->.
    { rewrite Hname.
      change (String c r +:+ " using " +:+ String.concat ", " gs)
        with (String c (r +:+ " using " +:+ String.concat ", " gs)).
      simpl. by rewrite (word_not_space c Hc). }
    simpl truthy. cbv iota.
    rewrite (span_app_stop is_word name _ Hw) by done.
    assert (truthy name = true) as -> by (by rewrite Hname).
    cbv beta iota.
    change (span is_space (" using " +:+ String.concat ", " gs))
      with (" ", "using " +:+ String.concat ", " gs).
    cbv beta iota.
    change (strip_prefix "using" ("using " +:+ String.concat ", " gs))
      with (Some (String " " (String.concat ", " gs))).
    cbv beta iota. change (is_space " ") with true. cbv iota.
    by rewrite (span_all is_dot _ (concat_names_dot gs Hgs)). }
  by apply header_search_here.
Qed.

End MoreSystemDefinitionFacts.

Section SystemDefinitionExtras.
Import Str Spec SystemDefinition.

(** X1: a definition made of names, written out in the syntax of the
    docstring (header with its [using] clause, one line per rule), parses
    back to itself. *)
Theorem from_lines_render lineno sd :
  well_formed sd = true → from_lines (render lineno sd) = Ok sd.
Proof.
  destruct sd as [name rules gs]. unfold well_formed, render.
  cbn [SystemDefinition.name unit_replacements using_group_names].
  rewrite !andb_true_iff. intros [[[Hname Hrules] Hne] Hgs].
  assert (gs ≠ []) as Hne' by (by destruct gs).
  unfold from_lines. rewrite (header_search_render name gs Hname Hgs).
  rewrite (strip_name _ Hname), (concat_names_truthy gs Hne' Hgs).
  rewrite (split_concat_names gs Hne' Hgs).
  by rewrite (for_each_parse_rule_render rules Hrules).
Qed.

Lemma from_lines_render_witness :
  from_lines (render 1%Z (mk "mks" [(2%Z, "kilogram", Some "gram");
                                    (3%Z, "meter", None)]
                            ["international"; "extra"]))
  = Ok (mk "mks" [(2%Z, "kilogram", Some "gram"); (3%Z, "meter", None)]
           ["international"; "extra"]).
Proof. apply from_lines_render. reflexivity. Defined.

Lemma match_header_at_keyword s r :
  match_header_at s = Some r → occurs "@system" s = true.
Proof.
  unfold match_header_at. intros H.
  destruct (strip_prefix "@system" s) as [r1|] eqn:H1; [|done].
  destruct s; cbn [occurs]; by rewrite H1.
Qed.

Lemma header_search_keyword s r :
  header_search s = Some r → occurs "@system" s = true.
Proof.
  induction s as [|c s IH]; cbn [header_search].
  - destruct (match_header_at EmptyString) eqn:H; [|done].
    intros _. by apply match_header_at_keyword in H.
  - destruct (match_header_at (String c s)) eqn:H.
    + intros _. by apply match_header_at_keyword in H.
    + intros H'. cbn [occurs]. rewrite (IH H').
      by destruct (strip_prefix "@system" (String c s)).
Qed.

(** X2: a header in which the text [@system] does not occur makes
    [from_lines] raise [ValueError], whatever lines follow. *)
Theorem from_lines_requires_keyword lineno header lines :
  occurs "@system" header = false →
  from_lines ((lineno, header) :: lines)
  = Raise (ValueError ("Invalid System header syntax '" +:+ header +:+ "'")).
Proof.
  intros Hno. unfold from_lines.
  destruct (header_search header) as [r|] eqn:H; [|done].
  apply header_search_keyword in H. congruence.
Qed.

Lemma from_lines_requires_keyword_witness :
  from_lines [(1%Z, "system mks using international"); (2%Z, "meter")]
  = Raise (ValueError "Invalid System header syntax 'system mks using international'").
Proof. apply from_lines_requires_keyword. reflexivity. Defined.

Lemma parse_rule_lineno l r : parse_rule l = Ok r → r.1.1 = l.1.
Proof.
  destruct l as [lineno line]. unfold parse_rule.
  destruct (contains_char ":" (strip line)).
  - destruct (split ":" (strip line)) as [|a [|b [|]]]; try done.
    by intros [= <-].
  - by intros [= <-].
Qed.

Lemma for_each_parse_rule_lineno lines rules :
  for_each parse_rule lines = Ok rules →
  (λ r : rule, r.1.1) <$> rules = fst <$> lines.
Proof.
  revert rules. induction lines as [|l lines IH]; intros rules; cbn [for_each].
  - by intros [= <-].
  - destruct (parse_rule l) as [r|] eqn:Hr; [|done].
    destruct (for_each parse_rule lines) as [rs|] eqn:Hrs; [|done].
    intros [= <-]. rewrite !fmap_cons, (IH rs eq_refl).
    by rewrite (parse_rule_lineno l r Hr).
Qed.

(** X3: the rules of the definition are the lines after the header, one
    rule per line and in the same order, each with the number of its
    line. *)
Theorem from_lines_line_numbers lineno header lines sd :
  from_lines ((lineno, header) :: lines) = Ok sd →
  (λ r : rule, r.1.1) <$> unit_replacements sd = fst <$> lines.
Proof.
  unfold from_lines. destruct (header_search header) as [[nm g]|]; [|done].
  destruct (for_each parse_rule lines) as [rules|] eqn:Hrules; [|done].
  intros [= <-]. by apply for_each_parse_rule_lineno.
Qed.

Lemma from_lines_line_numbers_witness :
  (λ r : rule, r.1.1) <$> [(7%Z, "kilogram", Some "gram"); (9%Z, "meter", None)]
  = [7%Z; 9%Z].
Proof.
  exact (from_lines_line_numbers 5%Z "@system mks"
           [(7%Z, "kilogram:gram"); (9%Z, " meter ")]
           (mk "mks" [(7%Z, "kilogram", Some "gram"); (9%Z, "meter", None)]
               ["root"]) eq_refl).
Defined.

Lemma parse_rule_error l e : parse_rule l = Raise e → e = unpack_error.
Proof.
  destruct l as [lineno line]. unfold parse_rule.
  destruct (contains_char ":" (strip line)); [|done].
  destruct (split ":" (strip line)) as [|a [|b [|]]]; try done;
    by intros [= <-].
Qed.

Lemma parse_rule_colons l :
  2 ≤ count_char ":" l.2 → parse_rule l = Raise unpack_error.
Proof.
  destruct l as [lineno line]. cbn [snd]. intros H. unfold parse_rule.
  rewrite <- (count_char_strip ":" line eq_refl) in H.
  rewrite contains_char_count.
  pose proof (length_split ":" (strip line)) as Hlen.
  destruct (Nat.eqb_spec (count_char ":" (strip line)) 0) as [Hz|_]; [lia|].
  cbn [negb].
  destruct (split ":" (strip line)) as [|a [|b [|]]]; try done.
  cbn [length] in Hlen. lia.
Qed.

Lemma for_each_parse_rule_colons lines :
  Exists (λ l : Z * string, 2 ≤ count_char ":" l.2) lines →
  for_each parse_rule lines = Raise unpack_error.
Proof.
  induction 1 as [l lines Hl|l lines _ IH]; cbn [for_each].
  - by rewrite (parse_rule_colons l Hl).
  - destruct (parse_rule l) as [r|e] eqn:Hr.
    + by rewrite IH.
    + by apply parse_rule_error in Hr as ->.
Qed.

(** X4: when one of the rule lines holds more than one colon, [from_lines]
    raises the [ValueError] of the failed unpacking, whatever the other
    lines are. *)
Theorem from_lines_too_many_colons lineno header lines r :
  header_search header = Some r →
  Exists (λ l : Z * string, 2 ≤ count_char ":" l.2) lines →
  from_lines ((lineno, header) :: lines)
  = Raise (ValueError "too many values to unpack (expected 2)").
Proof.
  intros Hh Hl. unfold from_lines. rewrite Hh. destruct r as [nm g].
  by rewrite (for_each_parse_rule_colons lines Hl).
Qed.

Lemma from_lines_too_many_colons_witness :
  from_lines [(1%Z, "@system mks"); (2%Z, "meter"); (3%Z, "a : b : c")]
  = Raise (ValueError "too many values to unpack (expected 2)").
Proof.
  apply (from_lines_too_many_colons _ _ _ ("mks", None)); [reflexivity|].
  apply Exists_cons_tl, Exists_cons_hd. vm_compute. lia.
Defined.

Lemma match_header_at_name s nm g :
  match_header_at s = Some (nm, g) → is_name nm = true.
Proof.
  unfold match_header_at.
  destruct (strip_prefix "@system" s) as [r1|]; [|done].
  destruct (span is_space r1) as [ws r2].
  destruct (truthy ws); [|done].
  pose proof (all_chars_span is_word r2) as Hall.
  destruct (span is_word r2) as [nm' r3]. cbn [fst] in Hall.
  destruct (truthy nm') eqn:Ht; [|done].
  destruct (span is_space r3) as [ws' r4].
  assert (is_name nm' = true) as Hnm by (unfold is_name; by rewrite Ht, Hall).
  destruct (strip_prefix "using" r4) as [[|c r5]|];
    [| destruct (is_space c) |]; by intros [= <- _].
Qed.

Lemma header_search_name s nm g :
  header_search s = Some (nm, g) → is_name nm = true.
Proof.
  induction s as [|c s IH]; cbn [header_search].
  - destruct (match_header_at EmptyString) as [r|] eqn:H; [|done].
    intros [= ->]. by apply match_header_at_name in H.
  - destruct (match_header_at (String c s)) as [r|] eqn:H; [|done].
    intros [= ->]. by apply match_header_at_name in H.
Qed.

(** X5: in every definition [from_lines] returns, the name is a non-empty
    run of word characters and there is at least one group name. *)
Theorem from_lines_name_and_groups lines sd :
  from_lines lines = Ok sd →
  is_name (name sd) = true ∧ using_group_names sd ≠ [].
Proof.
  destruct lines as [|[lineno header] lines]; [done|]. unfold from_lines.
  destruct (header_search header) as [[nm g]|] eqn:Hh; [|done].
  destruct (for_each parse_rule lines) as [rules|]; [|done].
  intros [= <-]. cbn [name using_group_names].
  apply header_search_name in Hh. rewrite (strip_name _ Hh). split; [done|].
  destruct g as [g|]; [|done]. destruct (truthy g); [|done].
  pose proof (length_split "," g) as Hlen.
  by destruct (split "," g).
Qed.

Lemma from_lines_name_and_groups_witness :
  is_name "mks" = true ∧ ["international"] ≠ [].
Proof.
  exact (from_lines_name_and_groups [(1%Z, "@system  mks using international")]
           (mk "mks" [] ["international"]) eq_refl).
Defined.

End SystemDefinitionExtras.

Section SystemExtras.
Import SystemDefinition System Spec.

Lemma elem_of_collect_warnings d system_name group_names acc msg :
  msg ∈ (collect_members d system_name group_names acc).2
  ↔ msg ∈ acc.2
    ∨ ∃ g, g ∈ group_names ∧ d !! g = None ∧ msg = warning g system_name.
Proof.
  revert acc. induction group_names as [|g gs IH]; intros acc; cbn [collect_members].
  - split; [by left|]. intros [H|(g & Hg & _)]; [done|].
    by apply elem_of_nil in Hg.
  - rewrite IH. destruct (d !! g) as [m|] eqn:Hdg; cbn [fst snd].
    + split.
      * intros [H|(g' & Hg' & Hd & Hm)]; [by left|].
        right. exists g'. split; [by apply list_elem_of_further|done].
      * intros [H|(g' & Hg' & Hd & Hm)]; [by left|].
        apply elem_of_cons in Hg' as [->|Hg']; [congruence|].
        right. by exists g'.
    + rewrite elem_of_app, list_elem_of_singleton. split.
      * intros [[H|H]|(g' & Hg' & Hd & Hm)]; [by left| |].
        -- right. exists g. split; [apply list_elem_of_here|done].
        -- right. exists g'. split; [by apply list_elem_of_further|done].
      * intros [H|(g' & Hg' & Hd & Hm)]; [by left; left|].
        apply elem_of_cons in Hg' as [->|Hg'].
        -- by left; right.
        -- right. by exists g'.
Qed.

(** X6: when the memo is empty, [members] logs a warning for each used
    group the registry does not resolve, and for nothing else. *)
Theorem members_warnings d self msg :
  _computed_members self = None →
  msg ∈ (members d self).1.2
  ↔ ∃ g, g ∈ _used_groups self ∧ d !! g = None ∧ msg = warning g (name self).
Proof.
  intros Hnone. unfold members. rewrite Hnone. cbn [fst snd].
  rewrite elem_of_collect_warnings. cbn [snd]. split.
  - intros [H|(g & Hg & H)]; [by apply elem_of_nil in H|].
    exists g. by rewrite <- elem_of_elements.
  - intros (g & Hg & H). right. exists g. by rewrite elem_of_elements.
Qed.

Lemma members_warnings_witness :
  "Could not resolve cgs in System imperial"
  ∈ (members Demo.groups (add_groups ["cgs"] Demo.imperial_system)).1.2.
Proof.
  apply (members_warnings Demo.groups (add_groups ["cgs"] Demo.imperial_system));
    [reflexivity|].
  exists "cgs". split; [|split; reflexivity].
  apply (bool_decide_unpack _). vm_compute. exact I.
Defined.

(** X7: once [members] has been read, reading it again returns the same set
    and logs nothing, whatever the table of groups has become: a change in
    the groups is not seen until the memo is cleared. *)
Theorem members_cached d d' self :
  members d' (members d self).2
  = (((members d self).1.1, []), (members d self).2).
Proof.
  by destruct self as [system_name b du ug [m|]].
Qed.

(** X8: adding groups that were not in use and removing them again leaves
    the System as it was, with the memo cleared. *)
Theorem remove_add_groups group_names self :
  (∀ g, g ∈ group_names → g ∉ _used_groups self) →
  remove_groups group_names (add_groups group_names self)
  = invalidate_members self.
Proof.
  intros Hnew. unfold remove_groups, add_groups, invalidate_members.
  cbn [name base_units derived_units _used_groups _computed_members].
  f_equal. apply set_eq. intros g.
  rewrite elem_of_difference, elem_of_union, elem_of_list_to_set.
  split; [tauto|]. intros Hg. split; [by left|]. intros Hin.
  by apply (Hnew g).
Qed.

Lemma remove_add_groups_witness :
  remove_groups ["metric"] (add_groups ["metric"] Demo.imperial_system)
  = invalidate_members Demo.imperial_system.
Proof.
  apply remove_add_groups. intros g Hg.
  apply list_elem_of_singleton in Hg as ->.
  apply (bool_decide_unpack _). vm_compute. exact I.
Defined.

(** X9: [__init__] creates an object that did not exist, empty but for its
    name, and enters it in [_systems] under the name; the other objects and
    the other names of the table are as before. *)
Theorem init_registers system_name w :
  objects w !! (__init__ system_name w).1 = None
  ∧ objects (__init__ system_name w).2 !! (__init__ system_name w).1
    = Some (System.mk system_name ∅ ∅ ∅ None)
  ∧ _systems (__init__ system_name w).2 !! system_name
    = Some (__init__ system_name w).1
  ∧ (∀ o, o ≠ (__init__ system_name w).1 →
          objects (__init__ system_name w).2 !! o = objects w !! o)
  ∧ (∀ n, n ≠ system_name →
          _systems (__init__ system_name w).2 !! n = _systems w !! n).
Proof.
  unfold __init__. cbn [fst snd objects _systems].
  split; [apply not_elem_of_dom, is_fresh|].
  split; [apply lookup_insert_eq|]. split; [apply lookup_insert_eq|].
  split; intros x Hx; by rewrite lookup_insert_ne.
Qed.

Context (get_root_func : string → result (Q * UnitsContainer)).
Context (units_str : UnitsContainer → string).

(** X10: when every rule applies, [from_definition] returns a new object,
    registered under the name of the definition, whose [base_units] is the
    dictionary the rules built, whose used groups are the groups of the
    definition, and whose memo is empty. *)
Theorem from_definition_registers sd w base_unit_names :
  apply_rules get_root_func units_str ∅ (unit_replacements sd)
  = Ok base_unit_names →
  ∃ system w',
    from_definition get_root_func units_str sd w = (Ok system, w')
    ∧ objects w !! system = None
    ∧ objects w' !! system
      = Some (System.mk (SystemDefinition.name sd) base_unit_names ∅
                (list_to_set (using_group_names sd)) None)
    ∧ _systems w' !! SystemDefinition.name sd = Some system
    ∧ _groups w' = _groups w.
Proof.
  intros Hrules. unfold from_definition. rewrite Hrules.
  unfold __init__, on_object. cbn [objects _systems _groups].
  eexists _, _. split; [reflexivity|]. cbn [objects _systems _groups].
  split; [apply not_elem_of_dom, is_fresh|].
  split; [|split; [apply lookup_insert_eq|done]].
  rewrite !alter_insert_eq, lookup_insert_eq. f_equal.
  unfold update_derived_units, update_base_units, add_groups, invalidate_members.
  cbn [name base_units derived_units _used_groups _computed_members].
  f_equal.
  - apply (right_id_L ∅ (∪)).
  - apply (left_id_L ∅ (∪)).
Qed.

(** X11: a bare rule [new_unit] whose root expansion is the single term
    [old_unit ** v] enters for [old_unit] the dictionary that maps
    [new_unit] to [1 / v]. *)
Theorem apply_rule_bare base_unit_names lineno new_unit factor old_unit v :
  get_root_func new_unit = Ok (factor, {[ old_unit := v ]}) →
  ¬ (v == 0)%Q →
  apply_rule get_root_func units_str base_unit_names (lineno, new_unit, None)
  = Ok (<[ old_unit := {[ new_unit := (1 / v)%Q ]} ]> base_unit_names).
Proof.
  intros Hroot Hv. cbn [apply_rule]. rewrite Hroot. unfold_bind.
  unfold to_units_container. rewrite map_size_singleton, map_to_list_singleton.
  cbn [Nat.eqb negb]. by rewrite (py_div_nonzero _ _ Hv).
Qed.

(** What a rule writes does not depend on the dictionary it writes to. *)
Lemma apply_rule_union base_unit_names r :
  apply_rule get_root_func units_str base_unit_names r
  = m ← apply_rule get_root_func units_str ∅ r; Ok (m ∪ base_unit_names).
Proof.
  assert (∀ k (v : gmap string Q),
            <[k := v]> base_unit_names = <[k := v]> ∅ ∪ base_unit_names) as Hins.
  { intros k v. by rewrite <- insert_union_l, (left_id_L ∅ (∪)). }
  destruct r as [[lineno new_unit] [old_unit|]]; cbn [apply_rule]; unfold_bind.
  - destruct (get_root_func old_unit) as [[f0 r0]|]; [|done].
    destruct (negb (String.eqb old_unit (units_str r0))); [done|].
    destruct (get_root_func new_unit) as [[f1 r1]|]; [|done].
    destruct (to_units_container r1 !! old_unit) as [e|]; [|done].
    destruct (invert_others old_unit (map_to_list (to_units_container r1)));
      [|done].
    destruct (py_div 1 e); [|done]. by rewrite Hins.
  - destruct (get_root_func new_unit) as [[f1 r1]|]; [|done].
    destruct (negb (size (to_units_container r1) =? 1)%nat); [done|].
    destruct (map_to_list (to_units_container r1)) as [|[k v] ?]; [done|].
    destruct (py_div 1 v); [|done]. by rewrite Hins.
Qed.

Lemma apply_rules_app base_unit_names rules1 rules2 :
  apply_rules get_root_func units_str base_unit_names (rules1 ++ rules2)
  = m ← apply_rules get_root_func units_str base_unit_names rules1;
    apply_rules get_root_func units_str m rules2.
Proof.
  revert base_unit_names. induction rules1 as [|r rules1 IH]; intros acc; [done|].
  cbn [app apply_rules]. unfold_bind.
  destruct (apply_rule get_root_func units_str acc r); [|done]. apply IH.
Qed.

(** X12: the last rule wins.  After any rules, a rule that writes the entry
    of [old_unit] replaces whatever the earlier rules had entered for that
    root unit, and leaves the entries of the other root units. *)
Theorem apply_rules_last_write_wins base_unit_names rules r after old_unit entry :
  apply_rules get_root_func units_str base_unit_names rules = Ok after →
  apply_rule get_root_func units_str ∅ r = Ok {[ old_unit := entry ]} →
  apply_rules get_root_func units_str base_unit_names (rules ++ [r])
  = Ok (<[ old_unit := entry ]> after).
Proof.
  intros Hrules Hr. rewrite apply_rules_app, Hrules. unfold_bind.
  cbn [apply_rules]. rewrite apply_rule_union, Hr. unfold_bind.
  by rewrite <- insert_union_singleton_l.
Qed.

(** X13: [System.from_lines] either returns a System or leaves the registry
    as it was: a text that does not parse, or a rule that fails, registers
    nothing. *)
Theorem from_lines_all_or_nothing lines w e :
  (System.from_lines get_root_func units_str lines w).1 = Raise e →
  (System.from_lines get_root_func units_str lines w).2 = w.
Proof.
  unfold System.from_lines, from_definition.
  destruct (SystemDefinition.from_lines lines) as [sd|]; [|done].
  by destruct (apply_rules get_root_func units_str ∅ (unit_replacements sd)).
Qed.

End SystemExtras.

Section SystemExtrasExamples.
Import SystemDefinition System Spec Demo.

Local Open Scope Q_scope.

(** [@system mks using international] with the rule [kilogram : gram]:
    [base_units] maps [gram] to [{kilogram: 1}]. *)
Lemma from_definition_registers_witness :
  ∃ system w',
    from_definition get_root_func units_str
      (SystemDefinition.mk "mks" [(2%Z, "kilogram", Some "gram")] ["international"])
      empty_registry = (Ok system, w')
    ∧ objects empty_registry !! system = None
    ∧ objects w' !! system
      = Some (System.mk "mks" {[ "gram" := {[ "kilogram" := 1 / 1 ]} ]} ∅
                (list_to_set ["international"]) None)
    ∧ _systems w' !! "mks" = Some system
    ∧ _groups w' = _groups empty_registry.
Proof.
  apply (from_definition_registers get_root_func units_str
           (SystemDefinition.mk "mks" [(2%Z, "kilogram", Some "gram")]
              ["international"])).
  vm_compute. reflexivity.
Defined.

Lemma apply_rule_bare_witness :
  apply_rule get_root_func units_str ∅ (2%Z, "kilometer", None)
  = Ok (<[ "meter" := {[ "kilometer" := 1 / 1 ]} ]> ∅).
Proof.
  apply (apply_rule_bare get_root_func units_str ∅ 2%Z "kilometer" 1000 "meter" 1).
  - reflexivity.
  - intros H. discriminate H.
Defined.

Lemma apply_rules_last_write_wins_witness :
  apply_rules get_root_func units_str ∅
    ([(2%Z, "kilogram", Some "gram")] ++ [(3%Z, "gram", None)])
  = Ok (<[ "gram" := {[ "gram" := 1 / 1 ]} ]>
          (<[ "gram" := {[ "kilogram" := 1 / 1 ]} ]> ∅)).
Proof.
  apply apply_rules_last_write_wins.
  - vm_compute. reflexivity.
  - vm_compute. reflexivity.
Defined.

Lemma from_lines_all_or_nothing_witness :
  (System.from_lines get_root_func units_str
     [(1%Z, "@system mks"); (2%Z, "speed")] empty_registry).2
  = empty_registry.
Proof.
  apply (from_lines_all_or_nothing get_root_func units_str _ _
           (ValueError ("The new base must be a root dimension if not "
                        +:+ "discarded unit is specified."))).
  reflexivity.
Defined.

End SystemExtrasExamples.

Section QuantityExtras.
Import Quantity Spec.
Context (E : Env).

Local Open Scope Q_scope.

(** X14: the property [dimensionality] is computed once.  After a first
    read, a second read returns the same value without a call to the
    registry: it succeeds with any registry. *)
Theorem dimensionality_memoized q d q' :
  dimensionality E q = Ok (d, q') →
  ∀ E', dimensionality E' q' = Ok (d, q').
Proof.
  intros H E'. by rewrite (dimensionality_result E q d q' H).
Qed.

(** X15: [ito] leaves the memo of [dimensionality] as it is: after a
    conversion in place, the property still returns the value memoised
    before it. *)
Theorem ito_keeps_memo q d target q' :
  _dimensionality q = Some d →
  ito E q target = Ok q' →
  dimensionality E q' = Ok (d, q').
Proof.
  intros Hd. unfold ito. unfold_bind.
  destruct (match target with
            | PyStr s => _parse_expression E s
            | PyQuantity o => Ok o
            | _ => _
            end) as [o|]; [|done].
  destruct (convert E (_magnitude q) (_units q) (_units o)) as [m|]; [|done].
  intros [= <-]. unfold dimensionality. cbn [_dimensionality]. by rewrite Hd.
Qed.

Lemma dimensionality_units q d q' :
  dimensionality E q = Ok (d, q') → _units q' = _units q.
Proof. intros H. by rewrite (dimensionality_result E q d q' H). Qed.

Lemma iadd_sub_units self other fun_ r :
  iadd_sub E self other fun_ = Ok r → _units r = _units self.
Proof.
  unfold iadd_sub.
  assert (∀ self' : t,
            _units self' = _units self →
            (d ← dimensionless E self';
             if d : bool
             then m ← _to_magnitude E other;
                  Ok (set_magnitude self' (fun_ (_magnitude self') m))
             else Raise DimensionalityError) = Ok r →
            _units r = _units self) as Hbare.
  { intros self' Hu. unfold_bind.
    destruct (dimensionless E self') as [[|]|]; try done.
    destruct (_to_magnitude E other); [|done]. by intros [= <-]. }
  destruct other; try (by apply Hbare).
  unfold_bind.
  destruct (dimensionality E self) as [[d1 s1]|] eqn:Hs; [|done].
  destruct (dimensionality E q) as [[d2 o1]|]; [|done].
  apply dimensionality_units in Hs.
  destruct (negb (dim_eq E d1 d2)); [done|].
  destruct (units_eq E (_units s1) (_units o1)).
  - intros [= <-]. exact Hs.
  - destruct (to E o1 (PyQuantity s1)); [|done]. intros [= <-]. exact Hs.
Qed.

(** X16: what [+] and [-] return, in place or as a copy, has the units of
    the left operand, whatever the right operand is. *)
Theorem additive_keeps_units (op : additive) self other r :
  in_place E op self other = Ok r ∨ copy_form E op self other = Ok r →
  _units r = _units self.
Proof.
  intros [H|H].
  - destruct op; by apply iadd_sub_units in H.
  - assert (copy_form E op self other
            = ret ← __copy__ E self; in_place E op ret other) as Hc
      by (by destruct op).
    rewrite Hc in H. unfold __copy__, new_plain in H. unfold_bind.
    destruct (_to_magnitude E (PyNum (_magnitude self))) as [m|]; [|done].
    destruct op; by apply iadd_sub_units in H.
Qed.









Lemma Qopp_opp x : - - x = x.
Proof. destruct x as [n d]. unfold Qopp. cbn. by rewrite Z.opp_involutive. Qed.



(** X20: negating twice gives the Quantity that unary plus gives: the same
    magnitude and units. *)
Theorem neg_involutive q :
  scalar_magnitudes E →
  (r ← __neg__ E q; __neg__ E r) = __pos__ E q
  ∧ __pos__ E q = Ok (mk (_magnitude q) (_units q) None).
Proof.
  intros Hmag. unfold __neg__, __pos__. rewrite !new_of_units.
  unfold new_plain. unfold_bind. rewrite !Hmag. cbn [_magnitude _units].
  rewrite new_of_units. unfold new_plain. unfold_bind.
  by rewrite Hmag, Qopp_opp.
Qed.


End QuantityExtras.

Section QuantityExtrasExamples.
Import Quantity Spec Demo.

Local Open Scope Q_scope.

(** After a read with the registry at hand, the read with the registry out
    of reach still answers. *)
Lemma dimensionality_memoized_witness :
  dimensionality offline (mk 1 (UnitsC {[ "meter" := 1 ]}) (Some {[ "[length]" := 1 ]}))
  = Ok ({[ "[length]" := 1 ]},
        mk 1 (UnitsC {[ "meter" := 1 ]}) (Some {[ "[length]" := 1 ]})).
Proof.
  exact (dimensionality_memoized env (quantity 1 "meter") _ _ eq_refl offline).
Defined.

Lemma ito_keeps_memo_witness :
  dimensionality env
    (mk (1 * 1 / 1000) (UnitsC {[ "kilometer" := 1 ]}) (Some {[ "[length]" := 1 ]}))
  = Ok ({[ "[length]" := 1 ]},
        mk (1 * 1 / 1000) (UnitsC {[ "kilometer" := 1 ]})
           (Some {[ "[length]" := 1 ]})).
Proof.
  exact (ito_keeps_memo env
           (mk 1 (UnitsC {[ "meter" := 1 ]}) (Some {[ "[length]" := 1 ]}))
           {[ "[length]" := 1 ]} (PyStr "kilometer") _ eq_refl eq_refl).
Defined.

Lemma additive_keeps_units_witness :
  _units (mk (1 + 1 * 1000 / 1) (UnitsC {[ "meter" := 1 ]})
             (Some {[ "[length]" := 1 ]}))
  = _units (quantity 1 "meter").
Proof.
  apply (additive_keeps_units env Add (quantity 1 "meter")
           (PyQuantity (quantity 1 "kilometer"))).
  right. reflexivity.
Defined.



Lemma neg_involutive_witness :
  (r ← __neg__ env (quantity 3 "meter"); __neg__ env r)
  = __pos__ env (quantity 3 "meter").
Proof. exact (proj1 (neg_involutive env (quantity 3 "meter") demo_scalar_magnitudes)). Defined.


End QuantityExtrasExamples.

Section QuantityExtrasExamples2.
Import Quantity Spec Demo.

Local Open Scope Q_scope.




End QuantityExtrasExamples2.

Section ListerExtras.
Import Lister.
Context {A : Type} (getattr_maybe_raise : string → result unit).

(** X22: for an item that [getattr_maybe_raise] lets through, [__getattr__]
    returns the value of every name [__dir__] lists, and raises [KeyError]
    for every other name. *)
Theorem lister_dir_getattr (d : gmap string A) item :
  getattr_maybe_raise item = Ok () →
  (item ∈ __dir__ d →
   ∃ v, d !! item = Some v ∧ __getattr__ getattr_maybe_raise d item = Ok v)
  ∧ (item ∉ __dir__ d →
     __getattr__ getattr_maybe_raise d item
     = Raise (OtherError ("KeyError: '" +:+ item +:+ "'"))).
Proof.
  intros Hok. unfold __getattr__, __dir__. rewrite Hok. unfold_bind. split.
  - intros Hin. apply list_elem_of_fmap in Hin as ([k v] & -> & Hin).
    apply elem_of_map_to_list in Hin. cbn [fst]. rewrite Hin. by exists v.
  - intros Hnot. destruct (d !! item) as [v|] eqn:Hd; [|done].
    exfalso. apply Hnot. apply list_elem_of_fmap. exists (item, v).
    split; [done|]. by apply elem_of_map_to_list.
Qed.

End ListerExtras.

Section ListerExamples.
Import Lister.

Lemma lister_dir_getattr_witness :
  __getattr__ (λ _, Ok ()) ({[ "mks" := 1%nat ]} : gmap string nat) "cgs"
  = Raise (OtherError "KeyError: 'cgs'").
Proof.
  apply (lister_dir_getattr (λ _, Ok ()) {[ "mks" := 1%nat ]} "cgs" eq_refl).
  unfold __dir__. rewrite map_to_list_singleton. cbn.
  intros H. apply list_elem_of_singleton in H. discriminate H.
Defined.

End ListerExamples.
